(** * godernize: the ctxnil analyzer and its ignore directives

    A shallow embedding of two Go packages of the repository,

    - [internal/directive]: parsing of [//godernize:ignore] comments and
      the [ShouldIgnore] lookup;
    - [ctxnil]: the analyzer that folds comparisons of a
      [context.Context] value with [nil], simplifies the guards of [if]
      statements built from such comparisons, and reports diagnostics
      with text edits;

    followed by the properties of the specification, each stated on these
    definitions. *)

From Stdlib Require Import ZArith Lia Bool Ascii String List.
From stdpp Require Import base option list gmap strings.
Import ListNotations.

Set Warnings "-register-all".

Local Open Scope Z_scope.

(** ** Go values used by both packages *)

(** A Go string is read as its sequence of Unicode code points ([rune]s);
    the functions of package [strings] used below ([TrimSpace],
    [CutPrefix], [Split] on [","]) act on a valid UTF-8 string exactly as
    they act on that sequence. *)
Definition rune := N.
Definition gostring := list rune.

Definition str (s : string) : gostring :=
  map N_of_ascii (list_ascii_of_string s).

(** [token.Pos] is a Go [int]; on the 64-bit targets it wraps modulo 2^64. *)
Definition int_max : Z := 2 ^ 63 - 1.
Definition wrap_int (z : Z) : Z := (z + 2 ^ 63) mod 2 ^ 64 - 2 ^ 63.
Definition int_sub (a b : Z) : Z := wrap_int (a - b).

(** [ast.Comment] and [ast.CommentGroup]: the text of every comment of the
    group, and the group's extent as [Pos()] and [End()] return it. *)
Record Comment := mkComment { Text : gostring }.

Record CommentGroup := mkCommentGroup {
  cgPos : Z;
  cgEnd : Z;
  cgList : list Comment
}.

(** ** Package [strings] *)

Module strings.

(** [unicode.IsSpace]: the Latin-1 spaces and the code points with the
    White_Space property. *)
Definition isSpace (r : rune) : bool :=
  match r with
  | 9 | 10 | 11 | 12 | 13 | 32 | 133 | 160
  | 5760 | 8232 | 8233 | 8239 | 8287 | 12288 => true
  | _ => (8192 <=? r) && (r <=? 8202)
  end%N.

Fixpoint TrimLeft (s : gostring) : gostring :=
  match s with
  | [] => []
  | c :: s' => if isSpace c then TrimLeft s' else s
  end.

Definition TrimRight (s : gostring) : gostring :=
  rev (TrimLeft (rev s)).

Definition TrimSpace (s : gostring) : gostring :=
  TrimRight (TrimLeft s).

Fixpoint HasPrefix (s prefix : gostring) : bool :=
  match prefix, s with
  | [], _ => true
  | p :: prefix', c :: s' => (c =? p)%N && HasPrefix s' prefix'
  | _ :: _, [] => false
  end.

Definition CutPrefix (s prefix : gostring) : gostring * bool :=
  if HasPrefix s prefix then (drop (length prefix) s, true) else (s, false).

(** [Split s sep] for a separator of one code point. *)
Fixpoint Split (s : gostring) (sep : rune) : list gostring :=
  match s with
  | [] => [[]]
  | c :: s' =>
      if (c =? sep)%N then [] :: Split s' sep
      else match Split s' sep with
           | w :: ws => (c :: w) :: ws
           | [] => [[c]]
           end
  end.

(** The first code point of [s] exists and is not a space. *)
Definition startsSolid (s : gostring) : bool :=
  match s with
  | c :: _ => negb (isSpace c)
  | [] => false
  end.

End strings.

(** ** Package [internal/directive] *)

Module directive.

Record Ignore := mkIgnore { Names : list gostring }.

Definition comma : rune := 44%N.

(** One iteration of the loop of [ParseIgnore]: [Some r] when the
    comment makes the function return [r], [None] when the loop goes on
    to the next comment. *)
Definition parseComment (comment : Comment) : option Ignore :=
  let text := strings.TrimSpace (Text comment) in
  if bool_decide (text = str "//godernize:ignore") then Some (mkIgnore [])
  else
    match strings.CutPrefix text (str "//godernize:ignore=") with
    | (val, true) =>
        let val := strings.TrimSpace val in
        if bool_decide (val = []) then Some (mkIgnore [])
        else
          let names := strings.Split val comma in
          if (length names =? 0)%nat then None
          else
            let names := map strings.TrimSpace names in
            if (0 <? length names)%nat then Some (mkIgnore names)
            else Some (mkIgnore [])
    | (_, false) => None
    end.

Fixpoint parseList (l : list Comment) : option Ignore :=
  match l with
  | [] => None
  | comment :: rest =>
      match parseComment comment with
      | Some i => Some i
      | None => parseList rest
      end
  end.

Definition ParseIgnore (doc : option CommentGroup) : option Ignore :=
  match doc with
  | None => None
  | Some g => parseList (cgList g)
  end.

Definition hasName (i : Ignore) (name : gostring) : bool :=
  existsb (fun n => bool_decide (n = name)) (Names i).

Definition ShouldIgnore (i : Ignore) (name : gostring) : bool :=
  if (length (Names i) =? 0)%nat then true else hasName i name.

Definition HasSpecificRules (i : Ignore) : bool :=
  (0 <? length (Names i))%nat.

End directive.

(** ** Packages [go/token], [go/ast], [go/types] and [analysis]:
       the parts the analyzer reads *)

Module token.

(** The binary and unary operator tokens of Go. *)
Inductive Token :=
| ADD | SUB | MUL | QUO | REM
| AND | OR | XOR | SHL | SHR | AND_NOT
| LAND | LOR | ARROW
| EQL | LSS | GTR | NOT | NEQ | LEQ | GEQ.

Definition eqb (a b : Token) : bool :=
  match a, b with
  | ADD, ADD | SUB, SUB | MUL, MUL | QUO, QUO | REM, REM
  | AND, AND | OR, OR | XOR, XOR | SHL, SHL | SHR, SHR
  | AND_NOT, AND_NOT | LAND, LAND | LOR, LOR | ARROW, ARROW
  | EQL, EQL | LSS, LSS | GTR, GTR | NOT, NOT | NEQ, NEQ
  | LEQ, LEQ | GEQ, GEQ => true
  | _, _ => false
  end.

Definition String (t : Token) : string :=
  match t with
  | ADD => "+" | SUB => "-" | MUL => "*" | QUO => "/" | REM => "%"
  | AND => "&" | OR => "|" | XOR => "^" | SHL => "<<" | SHR => ">>"
  | AND_NOT => "&^" | LAND => "&&" | LOR => "||" | ARROW => "<-"
  | EQL => "==" | LSS => "<" | GTR => ">" | NOT => "!" | NEQ => "!="
  | LEQ => "<=" | GEQ => ">="
  end.

(** What the analyzers read of a [token.FileSet]: the file name of
    [fset.Position(p)]. It is the name recorded for the position [p]
    after the [//line] directives that apply to it, so it need not be
    the name of the file that contains [p]. *)
Record FileSet := mkFileSet { Filename : Z -> string }.

End token.

(** The syntax trees below cover the expression and statement forms that
    the analyzer tells apart, with a call, a selector, a basic literal,
    an assignment and a [return] statement as the forms it does not
    look into; the operands of an expression and the guard of an [if]
    statement are never [nil] in a parsed file, so the [nil] checks of
    the analyzer on them are left out. *)
Module ast.

(** What the analyzer reads of every node: its address (nodes are
    compared and used as map keys by pointer) and the positions that its
    [Pos()] and [End()] methods return. *)
Record Hdr := mkHdr { ptr : Z; hPos : Z; hEnd : Z }.

Record BinaryExprOf (E : Type) := mkBinaryExpr {
  binHdr : Hdr;
  X : E;
  Op : token.Token;
  Y : E
}.
Arguments mkBinaryExpr {E}.
Arguments binHdr {E}.
Arguments X {E}.
Arguments Op {E}.
Arguments Y {E}.

Inductive Expr :=
| EBinary (b : BinaryExprOf Expr)
| UnaryExpr (h : Hdr) (op : token.Token) (x : Expr)
| ParenExpr (h : Hdr) (x : Expr)
| Ident (h : Hdr) (name : string)
| BasicLit (h : Hdr) (value : string)
| SelectorExpr (h : Hdr) (x : Expr) (sel : string)
| CallExpr (h : Hdr) (fn : Expr) (args : list Expr).

Definition BinaryExpr := BinaryExprOf Expr.

Definition exprHdr (e : Expr) : Hdr :=
  match e with
  | EBinary b => binHdr b
  | UnaryExpr h _ _ | ParenExpr h _ | Ident h _ | BasicLit h _
  | SelectorExpr h _ _ | CallExpr h _ _ => h
  end.

Record BlockStmtOf (S : Type) := mkBlockStmt {
  blockHdr : Hdr;
  List : list S
}.
Arguments mkBlockStmt {S}.
Arguments blockHdr {S}.
Arguments List {S}.

Record IfStmtOf (S : Type) := mkIfStmt {
  ifHdr : Hdr;
  Init : option S;
  Cond : Expr;
  Body : BlockStmtOf S;
  Else : option S
}.
Arguments mkIfStmt {S}.
Arguments ifHdr {S}.
Arguments Init {S}.
Arguments Cond {S}.
Arguments Body {S}.
Arguments Else {S}.

Inductive Stmt :=
| SBlock (b : BlockStmtOf Stmt)
| SIf (s : IfStmtOf Stmt)
| ExprStmt (h : Hdr) (x : Expr)
| AssignStmt (h : Hdr) (lhs rhs : list Expr)
| ReturnStmt (h : Hdr) (results : list Expr).

Definition BlockStmt := BlockStmtOf Stmt.
Definition IfStmt := IfStmtOf Stmt.

Inductive Decl :=
| FuncDecl (h : Hdr) (doc : option CommentGroup) (body : option BlockStmt)
| GenDecl (h : Hdr) (values : list Expr).

(** An [*ast.File]: its declarations, its comments and [File.Pos()],
    the position of its package clause. *)
Record File := mkFile {
  Decls : list Decl;
  Comments : list CommentGroup;
  FilePos : Z
}.

(** The nodes that can reach the callbacks of the analyzer. *)
Inductive Node :=
| NIf (s : IfStmt)
| NBin (b : BinaryExpr).

Definition nodeHdr (n : Node) : Hdr :=
  match n with
  | NIf s => ifHdr s
  | NBin b => binHdr b
  end.

End ast.

Module types.

Record Package := mkPackage { Path : string }.

Record TypeName := mkTypeName { Pkg : option Package; Name : string }.

(** [types.Type]: a named type with its (possibly missing) object, or a
    type of any other kind. *)
Inductive Type_ :=
| Named (obj : option TypeName)
| Unnamed (descr : string).

End types.

Module analysis.

Record TextEdit := mkTextEdit {
  ePos : Z;
  eEnd : Z;
  NewText : string
}.

Record SuggestedFix := mkSuggestedFix {
  fixMessage : string;
  TextEdits : list TextEdit
}.

Record Diagnostic := mkDiagnostic {
  Pos : Z;
  Message : string;
  SuggestedFixes : list SuggestedFix
}.

(** The part of [analysis.Pass] that the classifier, the simplifier and
    the diagnosers read: the files of the package and
    [TypesInfo.TypeOf]. The drivers also read [pass.Fset]; they take it
    as an argument of its own. *)
Record Pass := mkPass {
  Files : list ast.File;
  TypeOf : ast.Expr -> option types.Type_
}.

End analysis.

(** ** Package [ctxnil] *)

Module ctxnil.

Import ast analysis.
Local Open Scope string_scope.

Definition trueValue : string := "true".
Definition falseValue : string := "false".

(** *** The classifier *)

Definition isContextType (pass : Pass) (expr : Expr) : bool :=
  match TypeOf pass expr with
  | None => false
  | Some (types.Unnamed _) => false
  | Some (types.Named None) => false
  | Some (types.Named (Some obj)) =>
      match types.Pkg obj with
      | None => false
      | Some pkg =>
          String.eqb (types.Path pkg) "context"
          && String.eqb (types.Name obj) "Context"
      end
  end.

Definition isNilIdent (expr : Expr) : bool :=
  match expr with
  | Ident _ name => String.eqb name "nil"
  | _ => false
  end.

(** The three results of the Go function; a [nil] side is [None]. *)
Definition analyzeContextNilComparison (pass : Pass) (expr : BinaryExpr)
  : option Expr * option Expr * bool :=
  if negb (token.eqb (Op expr) token.EQL)
     && negb (token.eqb (Op expr) token.NEQ)
  then (None, None, false)
  else
    let leftIsCtx := isContextType pass (X expr) in
    let rightIsCtx := isContextType pass (Y expr) in
    let leftIsNil := isNilIdent (X expr) in
    let rightIsNil := isNilIdent (Y expr) in
    if leftIsCtx && rightIsNil
    then (Some (X expr), Some (Y expr), token.eqb (Op expr) token.EQL)
    else if rightIsCtx && leftIsNil
    then (Some (Y expr), Some (X expr), token.eqb (Op expr) token.EQL)
    else (None, None, false).

(** *** Rendering of expressions and statements *)

Fixpoint formatExpr (expr : Expr) : string :=
  match expr with
  | EBinary b =>
      formatExpr (X b) +:+ " " +:+ token.String (Op b) +:+ " "
      +:+ formatExpr (Y b)
  | Ident _ name => name
  | _ => "expr"
  end.

Definition newline : string := String (ascii_of_nat 10) EmptyString.
Definition tab : string := String (ascii_of_nat 9) EmptyString.

(** The Go literal ["{\n\t// statements\n}"]. *)
Definition blockText : string :=
  "{" +:+ newline +:+ tab +:+ "// statements" +:+ newline +:+ "}".

Definition formatStmt (stmt : Stmt) : string :=
  match stmt with
  | SBlock _ => blockText
  | SIf _ => "if condition { /* ... */ }"
  | _ => "/* statement */"
  end.

(** *** The simplifier *)

Record ReplacementCondition := mkReplacementCondition {
  NewCondition : string;
  IsLiteral : bool;
  RMessage : string
}.

(** [rep != nil] *)
Definition notNil (rep : option ReplacementCondition) : bool :=
  match rep with
  | Some _ => true
  | None => false
  end.

(** [rep != nil && rep.IsLiteral] *)
Definition isLit (rep : option ReplacementCondition) : bool :=
  match rep with
  | Some r => IsLiteral r
  | None => false
  end.

Definition isLiteralExpr (expr : string)
    (rep : option ReplacementCondition) : bool :=
  isLit rep || String.eqb expr trueValue || String.eqb expr falseValue.

Definition checkAndShortCircuit (leftExpr rightExpr : string)
    (leftRep rightRep : option ReplacementCondition)
  : option ReplacementCondition :=
  if isLit leftRep && String.eqb leftExpr falseValue
  then Some (mkReplacementCondition falseValue true
               "condition is always false (left side is false)")
  else if isLit rightRep && String.eqb rightExpr falseValue
  then Some (mkReplacementCondition falseValue true
               "condition is always false (right side is false)")
  else None.

Definition checkAndSimplification (leftExpr rightExpr : string)
    (leftRep rightRep : option ReplacementCondition)
  : option ReplacementCondition :=
  if isLit leftRep && String.eqb leftExpr trueValue
  then
    let isRightLiteral := isLiteralExpr rightExpr rightRep in
    Some (mkReplacementCondition rightExpr isRightLiteral
            ("simplify to '" +:+ rightExpr
             +:+ "' (left side is always true)"))
  else if String.eqb rightExpr trueValue
  then
    let isLeftLiteral := isLiteralExpr leftExpr leftRep in
    Some (mkReplacementCondition leftExpr isLeftLiteral
            ("simplify to '" +:+ leftExpr
             +:+ "' (right side is always true)"))
  else None.

Definition buildAndReplacement (leftExpr rightExpr : string)
    (leftRep rightRep : option ReplacementCondition)
  : option ReplacementCondition :=
  if notNil leftRep || notNil rightRep
  then
    let newCondition := leftExpr +:+ " && " +:+ rightExpr in
    Some (mkReplacementCondition newCondition false
            ("simplify to '" +:+ newCondition +:+ "'"))
  else None.

Definition simplifyAndExpr (leftExpr rightExpr : string)
    (leftRep rightRep : option ReplacementCondition)
  : option ReplacementCondition :=
  match checkAndShortCircuit leftExpr rightExpr leftRep rightRep with
  | Some result => Some result
  | None =>
      match checkAndSimplification leftExpr rightExpr leftRep rightRep with
      | Some result => Some result
      | None => buildAndReplacement leftExpr rightExpr leftRep rightRep
      end
  end.

Definition checkOrShortCircuit (leftExpr rightExpr : string)
    (leftRep rightRep : option ReplacementCondition)
  : option ReplacementCondition :=
  if isLit leftRep && String.eqb leftExpr trueValue
  then Some (mkReplacementCondition trueValue true
               "condition is always true (left side is true)")
  else if isLit rightRep && String.eqb rightExpr trueValue
  then Some (mkReplacementCondition trueValue true
               "condition is always true (right side is true)")
  else None.

Definition checkOrSimplification (leftExpr rightExpr : string)
    (leftRep rightRep : option ReplacementCondition)
  : option ReplacementCondition :=
  if isLit leftRep && String.eqb leftExpr falseValue
  then
    let isRightLiteral := isLiteralExpr rightExpr rightRep in
    Some (mkReplacementCondition rightExpr isRightLiteral
            ("simplify to '" +:+ rightExpr
             +:+ "' (left side is always false)"))
  else if String.eqb rightExpr falseValue
  then
    let isLeftLiteral := isLiteralExpr leftExpr leftRep in
    Some (mkReplacementCondition leftExpr isLeftLiteral
            ("simplify to '" +:+ leftExpr
             +:+ "' (right side is always false)"))
  else None.

Definition buildOrReplacement (leftExpr rightExpr : string)
    (leftRep rightRep : option ReplacementCondition)
  : option ReplacementCondition :=
  if notNil leftRep || notNil rightRep
  then
    let newCondition := leftExpr +:+ " || " +:+ rightExpr in
    Some (mkReplacementCondition newCondition false
            ("simplify to '" +:+ newCondition +:+ "'"))
  else None.

Definition simplifyOrExpr (leftExpr rightExpr : string)
    (leftRep rightRep : option ReplacementCondition)
  : option ReplacementCondition :=
  match checkOrShortCircuit leftExpr rightExpr leftRep rightRep with
  | Some result => Some result
  | None =>
      match checkOrSimplification leftExpr rightExpr leftRep rightRep with
      | Some result => Some result
      | None => buildOrReplacement leftExpr rightExpr leftRep rightRep
      end
  end.

(** [handleLogicalExpr] and [handleBinaryExpr] call back into
    [buildReplacementCondition]; they take that function as [build]
    and the recursion is tied in [buildReplacementCondition]. *)
Definition handleLogicalExpr (build : Expr -> option ReplacementCondition)
    (expr : BinaryExpr) : option ReplacementCondition :=
  let leftReplacement := build (X expr) in
  let rightReplacement := build (Y expr) in
  match leftReplacement, rightReplacement with
  | None, None => None
  | _, _ =>
      let leftExpr :=
        match leftReplacement with
        | Some l => NewCondition l
        | None => formatExpr (X expr)
        end in
      let rightExpr :=
        match rightReplacement with
        | Some r => NewCondition r
        | None => formatExpr (Y expr)
        end in
      if token.eqb (Op expr) token.LAND
      then simplifyAndExpr leftExpr rightExpr leftReplacement rightReplacement
      else simplifyOrExpr leftExpr rightExpr leftReplacement rightReplacement
  end.

Definition handleBinaryExpr (pass : Pass)
    (build : Expr -> option ReplacementCondition)
    (expr : BinaryExpr) : option ReplacementCondition :=
  match analyzeContextNilComparison pass expr with
  | (Some ctxSide, Some nilSide, isEqual) =>
      let replacement := if negb isEqual then trueValue else falseValue in
      Some (mkReplacementCondition replacement true
              ("context nil comparison '" +:+ formatExpr (EBinary expr)
               +:+ "' is always " +:+ replacement))
  | _ =>
      if token.eqb (Op expr) token.LAND || token.eqb (Op expr) token.LOR
      then handleLogicalExpr build expr
      else None
  end.

Fixpoint buildReplacementCondition (pass : Pass) (expr : Expr)
  : option ReplacementCondition :=
  match expr with
  | EBinary e => handleBinaryExpr pass (buildReplacementCondition pass) e
  | ParenExpr _ x =>
      match buildReplacementCondition pass x with
      | None => None
      | Some inner =>
          Some (mkReplacementCondition
                  ("(" +:+ NewCondition inner +:+ ")")
                  (IsLiteral inner)
                  (RMessage inner))
      end
  | _ => None
  end.

(** *** Diagnostics for the guard of an [if] statement *)

Definition createTrueConditionFix (stmt : IfStmt) : Diagnostic :=
  match Else stmt with
  | Some _ =>
      mkDiagnostic (hPos (ifHdr stmt))
        "condition is always true, else clause is unreachable"
        [mkSuggestedFix "Replace with then clause"
           [mkTextEdit (hPos (ifHdr stmt)) (hEnd (ifHdr stmt))
              (formatStmt (SBlock (Body stmt)))]]
  | None =>
      mkDiagnostic (hPos (ifHdr stmt))
        "condition is always true"
        [mkSuggestedFix "Replace with then clause"
           [mkTextEdit (hPos (ifHdr stmt)) (hEnd (ifHdr stmt))
              (formatStmt (SBlock (Body stmt)))]]
  end.

Definition createFalseConditionFix (stmt : IfStmt) : Diagnostic :=
  match Else stmt with
  | Some els =>
      mkDiagnostic (hPos (ifHdr stmt))
        "condition is always false, then clause is unreachable"
        [mkSuggestedFix "Replace with else clause"
           [mkTextEdit (hPos (ifHdr stmt)) (hEnd (ifHdr stmt))
              (formatStmt els)]]
  | None =>
      mkDiagnostic (hPos (ifHdr stmt))
        "condition is always false, remove entire if statement"
        [mkSuggestedFix "Remove if statement"
           [mkTextEdit (hPos (ifHdr stmt)) (hEnd (ifHdr stmt)) EmptyString]]
  end.

Definition createConditionFix (stmt : IfStmt)
    (replacement : ReplacementCondition) : Diagnostic :=
  if IsLiteral replacement
  then
    if String.eqb (NewCondition replacement) trueValue
    then createTrueConditionFix stmt
    else createFalseConditionFix stmt
  else
    mkDiagnostic (hPos (exprHdr (Cond stmt)))
      (RMessage replacement)
      [mkSuggestedFix
         ("Replace condition with '" +:+ NewCondition replacement +:+ "'")
         [mkTextEdit (hPos (exprHdr (Cond stmt)))
            (hEnd (exprHdr (Cond stmt)))
            (NewCondition replacement)]].

(** *** Suppression *)

Definition ignores (doc : option CommentGroup) (analyzerName : gostring)
  : bool :=
  match directive.ParseIgnore doc with
  | Some ignore => directive.ShouldIgnore ignore analyzerName
  | None => false
  end.

Definition shouldIgnoreInFunction (file : option File) (node : Node)
    (analyzerName : gostring) : bool :=
  match file with
  | None => false
  | Some f =>
      existsb
        (fun decl =>
           match decl with
           | FuncDecl h doc _ =>
               (hPos h <=? hPos (nodeHdr node))%Z
               && (hEnd (nodeHdr node) <=? hEnd h)%Z
               && ignores doc analyzerName
           | GenDecl _ _ => false
           end)
        (Decls f)
  end.

Definition shouldIgnoreFromComment (file : option File) (node : Node)
    (analyzerName : gostring) : bool :=
  match file with
  | None => false
  | Some f =>
      existsb
        (fun cg =>
           (cgEnd cg <=? hPos (nodeHdr node))%Z
           && (int_sub (hPos (nodeHdr node)) (cgEnd cg) <=? 200)%Z
           && ignores (Some cg) analyzerName)
        (Comments f)
  end.

Definition shouldIgnore (file : option File) (node : Node)
    (analyzerName : gostring) : bool :=
  match file with
  | None => false
  | Some _ =>
      shouldIgnoreInFunction file node analyzerName
      || shouldIgnoreFromComment file node analyzerName
  end.

(** *** The two diagnosers *)

Definition diagnoseBinaryExpr (pass : Pass) (file : option File)
    (expr : BinaryExpr) : option Diagnostic :=
  match analyzeContextNilComparison pass expr with
  | (Some ctxSide, Some nilSide, isEqual) =>
      if shouldIgnore file (NBin expr) (str "ctxnil") then None
      else
        let replacement := if negb isEqual then trueValue else falseValue in
        let message :=
          "context should never be nil, replace '"
          +:+ formatExpr (EBinary expr) +:+ "' with '" +:+ replacement
          +:+ "'" in
        Some (mkDiagnostic (hPos (binHdr expr)) message
                [mkSuggestedFix ("Replace with " +:+ replacement)
                   [mkTextEdit (hPos (binHdr expr)) (hEnd (binHdr expr))
                      replacement]])
  | _ => None
  end.

Definition diagnoseIfStmt (pass : Pass) (file : option File)
    (stmt : IfStmt) : option Diagnostic :=
  if shouldIgnore file (NIf stmt) (str "ctxnil") then None
  else
    match buildReplacementCondition pass (Cond stmt) with
    | None => None
    | Some replacement => Some (createConditionFix stmt replacement)
    end.

(** *** The driver *)

(** [processedExprs] is a [map[ast.Expr]bool]; its keys are node
    addresses and a missing key reads as [false]. *)
Definition isProcessed (processed : gmap Z bool) (h : Hdr) : bool :=
  default false (processed !! ptr h).

Fixpoint markProcessedExpr (expr : Expr) (processed : gmap Z bool)
  : gmap Z bool :=
  let processed := <[ptr (exprHdr expr) := true]> processed in
  match expr with
  | EBinary exprType =>
      markProcessedExpr (Y exprType)
        (markProcessedExpr (X exprType) processed)
  | UnaryExpr _ _ x => markProcessedExpr x processed
  | ParenExpr _ x => markProcessedExpr x processed
  | _ => processed
  end.

(** [inspect.Preorder] with the node filter of [run]: the [if]
    statements and binary expressions of a tree, a node before its
    children and the children in the order of [ast.Walk]. *)
Fixpoint preorderExpr (e : Expr) : list Node :=
  match e with
  | EBinary b => NBin b :: preorderExpr (X b) ++ preorderExpr (Y b)
  | UnaryExpr _ _ x => preorderExpr x
  | ParenExpr _ x => preorderExpr x
  | Ident _ _ => []
  | BasicLit _ _ => []
  | SelectorExpr _ x _ => preorderExpr x
  | CallExpr _ fn args => preorderExpr fn ++ flat_map preorderExpr args
  end.

Fixpoint preorderStmt (s : Stmt) : list Node :=
  match s with
  | SBlock b => flat_map preorderStmt (List b)
  | SIf i =>
      NIf i
      :: match Init i with Some s' => preorderStmt s' | None => [] end
      ++ preorderExpr (Cond i)
      ++ flat_map preorderStmt (List (Body i))
      ++ match Else i with Some s' => preorderStmt s' | None => [] end
  | ExprStmt _ x => preorderExpr x
  | AssignStmt _ lhs rhs =>
      flat_map preorderExpr lhs ++ flat_map preorderExpr rhs
  | ReturnStmt _ results => flat_map preorderExpr results
  end.

Definition preorderDecl (d : Decl) : list Node :=
  match d with
  | FuncDecl _ _ (Some body) => flat_map preorderStmt (List body)
  | FuncDecl _ _ None => []
  | GenDecl _ values => flat_map preorderExpr values
  end.

Definition preorderFile (f : File) : list Node :=
  flat_map preorderDecl (Decls f).

(** The nodes of the files of the pass, in the order [Preorder] visits
    them. *)
Definition preorderNodes (pass : Pass) : list Node :=
  flat_map preorderFile (Files pass).

(** [buildFileMap]: the files of the pass under the file name that the
    file set gives for their position; a later file replaces an earlier
    one of the same name. *)
Definition buildFileMap (fset : token.FileSet) (pass : Pass)
  : gmap string File :=
  fold_left
    (fun fileMap file =>
       <[token.Filename fset (FilePos file) := file]> fileMap)
    (Files pass) ∅.

(** The file that the callback of [run] finds for a node: the entry of
    the file map under the file name of the node's position, [nil] when
    there is none. *)
Definition fileOf (fset : token.FileSet) (pass : Pass) (n : Node)
  : option File :=
  buildFileMap fset pass !! token.Filename fset (hPos (nodeHdr n)).

(** The nodes of the whole pass, each with the file that is found for
    it. *)
Definition preorder (fset : token.FileSet) (pass : Pass)
  : list (option File * Node) :=
  map (fun n => (fileOf fset pass n, n)) (preorderNodes pass).

(** The state of the traversal: the processed set and the diagnostics
    reported so far, oldest first. *)
Record State := mkState {
  processedExprs : gmap Z bool;
  reported : list Diagnostic
}.

Definition Report (st : State) (d : Diagnostic) : State :=
  mkState (processedExprs st) (reported st ++ [d]).

(** The callback given to [Preorder]. *)
Definition visit (pass : Pass) (st : State) (fn : option File * Node)
  : State :=
  let (file, n) := fn in
  match n with
  | NIf node =>
      match diagnoseIfStmt pass file node with
      | Some diagnostic =>
          let st := Report st diagnostic in
          mkState (markProcessedExpr (Cond node) (processedExprs st))
                  (reported st)
      | None => st
      end
  | NBin node =>
      if negb (isProcessed (processedExprs st) (binHdr node))
      then
        match diagnoseBinaryExpr pass file node with
        | Some diagnostic => Report st diagnostic
        | None => st
        end
      else st
  end.

(** [run] for a pass that is present together with its inspector; the
    result is the list of the diagnostics handed to [pass.Report], in
    order. *)
Definition run (fset : token.FileSet) (pass : Pass) : list Diagnostic :=
  reported (fold_left (visit pass) (preorder fset pass) (mkState ∅ [])).

End ctxnil.

(** ** Package [unicode/utf8] *)

Module utf8.

(** A continuation byte. *)
Definition cont (b : N) : bool := ((128 <=? b) && (b <=? 191))%N.

(** The code points of a byte sequence, as [utf8.DecodeRune] reads them
    one after the other: an ill-formed byte gives [RuneError] (65533) and
    is skipped alone. *)
Fixpoint decode (l : list N) : list rune :=
  match l with
  | [] => []
  | b0 :: t =>
      let bad := 65533%N :: decode t in
      if (b0 <? 128)%N then b0 :: decode t
      else if ((194 <=? b0) && (b0 <=? 223))%N then
        match t with
        | b1 :: t1 =>
            if cont b1
            then ((b0 - 192) * 64 + (b1 - 128))%N :: decode t1
            else bad
        | [] => bad
        end
      else if ((224 <=? b0) && (b0 <=? 239))%N then
        match t with
        | b1 :: b2 :: t2 =>
            if ((if b0 =? 224 then 160 else 128) <=? b1)%N
               && (b1 <=? (if b0 =? 237 then 159 else 191))%N
               && cont b2
            then ((b0 - 224) * 4096 + (b1 - 128) * 64 + (b2 - 128))%N
                 :: decode t2
            else bad
        | _ => bad
        end
      else if ((240 <=? b0) && (b0 <=? 244))%N then
        match t with
        | b1 :: b2 :: b3 :: t3 =>
            if ((if b0 =? 240 then 144 else 128) <=? b1)%N
               && (b1 <=? (if b0 =? 244 then 143 else 191))%N
               && cont b2 && cont b3
            then ((b0 - 240) * 262144 + (b1 - 128) * 4096
                  + (b2 - 128) * 64 + (b3 - 128))%N
                 :: decode t3
            else bad
        | _ => bad
        end
      else bad
  end.

(** The code points of a Go string given by its bytes. *)
Definition runes (s : string) : gostring :=
  decode (map N_of_ascii (list_ascii_of_string s)).

End utf8.

(** ** Package [oserrors] *)

Module oserrors.

Import ast analysis.
Local Open Scope string_scope.

(** [ast.ImportSpec]: the name of the import when it has one, and the
    value of its path literal. *)
Record ImportSpec := mkImportSpec {
  impName : option string;
  impPath : option string
}.

(** An [*ast.File] as this analyzer reads it: its declarations, comments
    and position, its end, and its imports (an entry may be [nil]). *)
Record SourceFile := mkSourceFile {
  syntax : File;
  fileEnd : Z;
  Imports : list (option ImportSpec)
}.

Definition filePos (f : SourceFile) : Z := FilePos (syntax f).

(** An [*ast.CallExpr]. *)
Record Call := mkCall {
  callHdr : Hdr;
  Fun : Expr;
  Args : list Expr
}.

(** The outcome of a function that dereferences its [file] argument: a
    [nil] file makes it panic. *)
Inductive Result (A : Type) :=
| Ok (a : A)
| Panic.
Arguments Ok {A}.
Arguments Panic {A}.

Record runner := mkRunner { osFuncsToFsErr : gmap string string }.

(** The runner of [Analyzer]. *)
Definition analyzerRunner : runner :=
  mkRunner (<["IsNotExist" := "ErrNotExist"]>
              (<["IsExist" := "ErrExist"]>
                 (<["IsPermission" := "ErrPermission"]> ∅))).

(** [token.Pos.IsValid] *)
Definition IsValid (p : Z) : bool := negb (p =? 0)%Z.

Section Library.

(** Three functions of the Go libraries, used as they are:
    [strconv.Quote], [filepath.Base], and [format.Node] writing into a
    buffer ([None] when it returns an error). *)
Variable Quote : string -> string.
Variable Base : string -> string.
Variable formatNode : Expr -> option string.

Definition aliasNameOf (imp : ImportSpec) : string :=
  match impName imp with
  | None => ""
  | Some name => name
  end.

Fixpoint findAliasNameIn (imports : list (option ImportSpec))
    (path : string) : string :=
  match imports with
  | [] => ""
  | None :: rest => findAliasNameIn rest path
  | Some imp :: rest =>
      match impPath imp with
      | None => findAliasNameIn rest path
      | Some value =>
          if String.eqb value (Quote path)
          then
            let aliasName := aliasNameOf imp in
            if String.eqb aliasName "" then Base path else aliasName
          else findAliasNameIn rest path
      end
  end.

Definition findAliasName (file : SourceFile) (path : string) : string :=
  findAliasNameIn (Imports file) path.

(** [ident] is given by its header. *)
Definition importedIdentifier (file : option SourceFile) (ident : Hdr)
    (path : string) : string :=
  match file with
  | None => ""
  | Some f =>
      if negb (IsValid (hPos ident)) then ""
      else if negb (IsValid (filePos f)) || negb (IsValid (fileEnd f))
              || (hPos ident <? filePos f)%Z || (fileEnd f <? hPos ident)%Z
      then ""
      else findAliasName f path
  end.

Definition isPkg (file : option SourceFile) (expr : Expr) (path : string)
  : bool :=
  match expr with
  | Ident h name => String.eqb name (importedIdentifier file h path)
  | _ => false
  end.

Definition findMapping (r : runner) (file : option SourceFile) (call : Call)
  : string * string :=
  match Fun call with
  | SelectorExpr _ x sel =>
      if negb (isPkg file x "os") then ("", "")
      else (sel, default "" (osFuncsToFsErr r !! sel))
  | _ => ("", "")
  end.

Definition ignoresCall (doc : option CommentGroup) (funcName : string)
  : bool :=
  match directive.ParseIgnore doc with
  | Some ignore =>
      directive.ShouldIgnore ignore (str "oserrors")
      || directive.ShouldIgnore ignore (utf8.runes funcName)
  | None => false
  end.

Definition shouldIgnoreInFunction (file : SourceFile) (call : Call)
    (funcName : string) : bool :=
  existsb
    (fun decl =>
       match decl with
       | FuncDecl h doc _ =>
           (hPos h <=? hPos (callHdr call))%Z
           && (hEnd (callHdr call) <=? hEnd h)%Z
           && ignoresCall doc funcName
       | GenDecl _ _ => false
       end)
    (Decls (syntax file)).

Definition shouldIgnoreFromComment (file : SourceFile) (call : Call)
    (funcName : string) : bool :=
  existsb
    (fun cg =>
       (cgEnd cg <=? hPos (callHdr call))%Z
       && (int_sub (hPos (callHdr call)) (cgEnd cg) <=? 200)%Z
       && ignoresCall (Some cg) funcName)
    (Comments (syntax file)).

Definition shouldIgnore (file : option SourceFile) (call : Call)
    (funcName : string) : Result bool :=
  match file with
  | None => Panic
  | Some f =>
      Ok (shouldIgnoreInFunction f call funcName
          || shouldIgnoreFromComment f call funcName)
  end.

Definition formatASTNode (node : Expr) : string :=
  match formatNode node with
  | Some text => text
  | None => ""
  end.

Definition buildReplacementText (file : option SourceFile)
    (argText fsErr : string) : Result string :=
  match file with
  | None => Panic
  | Some f =>
      let errorsPackage :=
        if String.eqb (findAliasName f "errors") "" then "errors"
        else findAliasName f "errors" in
      let fsPackage :=
        if String.eqb (findAliasName f "io/fs") "" then "fs"
        else findAliasName f "io/fs" in
      Ok (errorsPackage +:+ ".Is(" +:+ argText +:+ ", " +:+ fsPackage
          +:+ "." +:+ fsErr +:+ ")")
  end.

Definition createDiagnostic (file : option SourceFile) (call : Call)
    (fName fsErr : string) : Result (option Diagnostic) :=
  if negb (IsValid (hPos (callHdr call)))
     || negb (IsValid (hEnd (callHdr call)))
  then Ok None
  else
    match Args call with
    | [arg] =>
        let argText :=
          if String.eqb (formatASTNode arg) "" then "err"
          else formatASTNode arg in
        match buildReplacementText file argText fsErr with
        | Panic => Panic
        | Ok replacementText =>
            if String.eqb replacementText "" then Ok None
            else
              Ok (Some
                    (mkDiagnostic (hPos (callHdr call))
                       ("os." +:+ fName +:+ " is deprecated, use "
                        +:+ replacementText +:+ " instead")
                       [mkSuggestedFix ("Replace with " +:+ replacementText)
                          [mkTextEdit (hPos (callHdr call))
                             (hEnd (callHdr call)) replacementText]]))
        end
    | _ => Ok None
    end.

Definition diagnoseCallExpr (r : runner) (file : option SourceFile)
    (call : Call) : Result (option Diagnostic) :=
  let (fName, fsErr) := findMapping r file call in
  if String.eqb fsErr "" then Ok None
  else
    match shouldIgnore file call fName with
    | Panic => Panic
    | Ok true => Ok None
    | Ok false => createDiagnostic file call fName fsErr
    end.

End Library.

(** [inspect.Preorder] with the node filter of [run]: the calls of a
    tree, a call before its function and its arguments. *)
Fixpoint callsExpr (e : Expr) : list Call :=
  match e with
  | EBinary b => callsExpr (X b) ++ callsExpr (Y b)
  | UnaryExpr _ _ x => callsExpr x
  | ParenExpr _ x => callsExpr x
  | Ident _ _ => []
  | BasicLit _ _ => []
  | SelectorExpr _ x _ => callsExpr x
  | CallExpr h fn args =>
      mkCall h fn args :: callsExpr fn ++ flat_map callsExpr args
  end.

Fixpoint callsStmt (s : Stmt) : list Call :=
  match s with
  | SBlock b => flat_map callsStmt (List b)
  | SIf i =>
      match Init i with Some s' => callsStmt s' | None => [] end
      ++ callsExpr (Cond i)
      ++ flat_map callsStmt (List (Body i))
      ++ match Else i with Some s' => callsStmt s' | None => [] end
  | ExprStmt _ x => callsExpr x
  | AssignStmt _ lhs rhs => flat_map callsExpr lhs ++ flat_map callsExpr rhs
  | ReturnStmt _ results => flat_map callsExpr results
  end.

Definition callsDecl (d : Decl) : list Call :=
  match d with
  | FuncDecl _ _ (Some body) => flat_map callsStmt (List body)
  | FuncDecl _ _ None => []
  | GenDecl _ values => flat_map callsExpr values
  end.

Definition callsFile (f : SourceFile) : list Call :=
  flat_map callsDecl (Decls (syntax f)).

(** The calls of the files of a pass, in the order [Preorder] visits
    them. *)
Definition callNodes (files : list SourceFile) : list Call :=
  flat_map callsFile files.

(** [buildFileMap]: the files of the pass under the file name that the
    file set gives for their position; a later file replaces an earlier
    one of the same name. *)
Definition buildFileMap (fset : token.FileSet) (files : list SourceFile)
  : gmap string SourceFile :=
  fold_left
    (fun fileMap file =>
       <[token.Filename fset (filePos file) := file]> fileMap)
    files ∅.

(** The file that the callback of [run] finds for a call: the entry of
    the file map under the file name of the call's position, [nil] when
    there is none. *)
Definition fileOf (fset : token.FileSet) (files : list SourceFile)
    (call : Call) : option SourceFile :=
  buildFileMap fset files !! token.Filename fset (hPos (callHdr call)).

(** The calls of the whole pass, each with the file that is found for
    it. *)
Definition calls (fset : token.FileSet) (files : list SourceFile)
  : list (option SourceFile * Call) :=
  map (fun call => (fileOf fset files call, call)) (callNodes files).

(** One call of the callback of [run]: the diagnostics reported so far,
    or a panic. *)
Definition visit (Quote Base : string -> string)
    (formatNode : Expr -> option string) (r : runner)
    (st : Result (list Diagnostic)) (fc : option SourceFile * Call)
  : Result (list Diagnostic) :=
  match st with
  | Panic => Panic
  | Ok reported =>
      match diagnoseCallExpr Quote Base formatNode r (fst fc) (snd fc) with
      | Panic => Panic
      | Ok (Some diagnostic) => Ok (reported ++ [diagnostic])%list
      | Ok None => Ok reported
      end
  end.

(** [run] on the file set and the files of a pass that is present
    together with its inspector: the diagnostics handed to
    [pass.Report], in order, or a panic. *)
Definition run (Quote Base : string -> string)
    (formatNode : Expr -> option string) (r : runner)
    (fset : token.FileSet) (files : list SourceFile)
  : Result (list Diagnostic) :=
  fold_left (visit Quote Base formatNode r) (calls fset files) (Ok []).

End oserrors.

(** ** Vocabulary for the properties *)

Module Vocabulary.

Import ast analysis ctxnil.

(** No parenthesized expression among the nodes that the simplifier
    descends into: [buildReplacementCondition] goes into the operands
    of [&&] and of [||] ([handleLogicalExpr]) and into those of no
    other operator ([handleBinaryExpr]). *)
Fixpoint parenFree (e : Expr) : bool :=
  match e with
  | EBinary b =>
      if token.eqb (Op b) token.LAND || token.eqb (Op b) token.LOR
      then parenFree (X b) && parenFree (Y b)
      else true
  | ParenExpr _ _ => false
  | _ => true
  end.

(** The invariant of [ReplacementCondition]: a result flagged literal
    has one of the two spellings as its text. *)
Definition spelled (r : ReplacementCondition) : Prop :=
  IsLiteral r = true ->
  NewCondition r = trueValue \/ NewCondition r = falseValue.

Definition spelledOpt (o : option ReplacementCondition) : Prop :=
  forall r, o = Some r -> spelled r.

(** The binary expressions that [markProcessedExpr] reaches from
    [expr]: those under binary, unary and parenthesized nodes only. *)
Fixpoint markedBinaries (expr : Expr) : list BinaryExpr :=
  match expr with
  | EBinary b => b :: markedBinaries (X b) ++ markedBinaries (Y b)
  | UnaryExpr _ _ x => markedBinaries x
  | ParenExpr _ x => markedBinaries x
  | _ => []
  end.

(** All the binary expressions inside [expr], at any depth. *)
Definition binariesOf (expr : Expr) : list BinaryExpr :=
  flat_map (fun n => match n with NBin b => [b] | NIf _ => [] end)
    (preorderExpr expr).

Definition isComparison (b : BinaryExpr) : bool :=
  token.eqb (Op b) token.EQL || token.eqb (Op b) token.NEQ.

(** The state of [run] after the first [k] nodes of the traversal. *)
Definition stateAt (fset : token.FileSet) (pass : Pass) (k : nat)
  : State :=
  fold_left (visit pass) (take k (preorder fset pass)) (mkState ∅ []).

(** Distinct nodes of the traversal lie at distinct addresses. *)
Definition distinctNodes (pass : Pass) : Prop :=
  NoDup (map (fun n => ptr (nodeHdr n)) (preorderNodes pass)).

(** In the node list [L], the nodes of the guard of every [if]
    statement come after the statement. *)
Definition guardsFollow (L : list Node) : Prop :=
  forall (i : nat) (s : IfStmt) (n : Node),
    L !! i = Some (NIf s) ->
    In n (preorderExpr (Cond s)) ->
    exists j : nat, (i < j)%nat /\ L !! j = Some n.

(** No double report, for the comparisons that [inGuard] finds in a
    guard: when the [i]-th node of the traversal is an [if] statement
    for which a diagnostic is produced, each such comparison is marked
    processed at the end of the traversal, is visited after the [if]
    statement, and no visit of it adds a diagnostic. *)
Definition NoDoubleReport (inGuard : Expr -> list BinaryExpr)
    (fset : token.FileSet) (pass : Pass) : Prop :=
  forall (i : nat) (file : option File) (s : IfStmt) (b : BinaryExpr),
    preorder fset pass !! i = Some (file, NIf s) ->
    diagnoseIfStmt pass file s <> None ->
    In b (inGuard (Cond s)) ->
    isComparison b = true ->
    isProcessed
      (processedExprs
         (stateAt fset pass (length (preorder fset pass))))
      (binHdr b) = true
    /\ (exists (j : nat) (file' : option File),
           (i < j)%nat /\ preorder fset pass !! j = Some (file', NBin b))
    /\ (forall (j : nat) (file' : option File),
           preorder fset pass !! j = Some (file', NBin b) ->
           reported (stateAt fset pass (S j))
           = reported (stateAt fset pass j)).

End Vocabulary.

(** ** Vocabulary for the further properties *)

Module DirectiveVocabulary.
Import strings directive.

(** [strings.Join] with a separator of one code point. *)
Fixpoint Join (elems : list gostring) (sep : rune) : gostring :=
  match elems with
  | [] => []
  | [n] => n
  | n :: rest => n ++ sep :: Join rest sep
  end.

(** The comment is one of the two directive forms: after trimming, its
    text is [//godernize:ignore] or starts with [//godernize:ignore=]. *)
Definition isDirective (c : Comment) : bool :=
  bool_decide (TrimSpace (Text c) = str "//godernize:ignore")
  || HasPrefix (TrimSpace (Text c)) (str "//godernize:ignore=").

(** A name as [ParseIgnore] returns it: no comma inside, no white space
    at either end. *)
Definition isName (n : gostring) : Prop :=
  ~ In comma n /\ TrimSpace n = n.

(** A name that differs from every name of the list: it is longer than
    all of them together. *)
Definition freshName (names : list gostring) : gostring :=
  repeat 97%N (S (list_sum (map (@length rune) names))).

End DirectiveVocabulary.

Module CtxnilVocabulary.
Import ast analysis ctxnil.

(** The classifier applies to the comparison. *)
Definition isCtxNilComparison (pass : Pass) (b : BinaryExpr) : bool :=
  (token.eqb (Op b) token.EQL || token.eqb (Op b) token.NEQ)
  && ((isContextType pass (X b) && isNilIdent (Y b))
      || (isContextType pass (Y b) && isNilIdent (X b))).

(** Some comparison to which the classifier applies is reached from [e]
    through [&&], [||] and parentheses. *)
Fixpoint reachesComparison (pass : Pass) (e : Expr) : bool :=
  match e with
  | EBinary b =>
      isCtxNilComparison pass b
      || ((token.eqb (Op b) token.LAND || token.eqb (Op b) token.LOR)
          && (reachesComparison pass (X b) || reachesComparison pass (Y b)))
  | ParenExpr _ x => reachesComparison pass x
  | _ => false
  end.

(** The addresses that [markProcessedExpr] marks from [expr]. *)
Fixpoint markedAddresses (expr : Expr) : list Z :=
  ptr (exprHdr expr)
  :: match expr with
     | EBinary b => markedAddresses (X b) ++ markedAddresses (Y b)
     | UnaryExpr _ _ x => markedAddresses x
     | ParenExpr _ x => markedAddresses x
     | _ => []
     end.

End CtxnilVocabulary.

Module DriverVocabulary.
Import ast analysis ctxnil.

(** The diagnostic [d] is what the diagnoser of node [n] returns. *)
Definition produces (pass : Pass) (file : option File) (n : Node)
    (d : Diagnostic) : Prop :=
  match n with
  | NIf s => diagnoseIfStmt pass file s = Some d
  | NBin b => diagnoseBinaryExpr pass file b = Some d
  end.

(** The diagnostic carries one suggested fix with one text edit, and the
    edit replaces the source from [p] to [e], where the diagnostic is
    reported. *)
Definition editsSpan (d : Diagnostic) (p e : Z) : Prop :=
  Pos d = p
  /\ exists (m : string) (text : string),
      SuggestedFixes d = [mkSuggestedFix m [mkTextEdit p e text]].

End DriverVocabulary.

Module OserrorsVocabulary.

Import ast analysis oserrors.
Local Open Scope string_scope.

Section Library.

Variable Quote : string -> string.
Variable Base : string -> string.
Variable formatNode : Expr -> option string.

(** The import is one of [path]. *)
Definition importsPath (path : string) (imp : option ImportSpec) : Prop :=
  exists i, imp = Some i /\ impPath i = Some (Quote path).

(** What one call adds to the report. *)
Definition reportOf (r : runner) (fc : option SourceFile * Call)
  : list Diagnostic :=
  match diagnoseCallExpr Quote Base formatNode r (fst fc) (snd fc) with
  | Ok (Some d) => [d]
  | _ => []
  end.

(** The text that [createDiagnostic] takes for the argument [arg], and
    the package name that [buildReplacementText] writes for [path]. *)
Definition argTextOf (arg : Expr) : string :=
  if String.eqb (formatASTNode formatNode arg) "" then "err"
  else formatASTNode formatNode arg.

Definition packageName (f : SourceFile) (path fallback : string) : string :=
  if String.eqb (findAliasName Quote Base f path) "" then fallback
  else findAliasName Quote Base f path.

Definition replacementOf (f : SourceFile) (arg : Expr) (fsErr : string)
  : string :=
  packageName f "errors" "errors" +:+ ".Is(" +:+ argTextOf arg +:+ ", "
  +:+ packageName f "io/fs" "fs" +:+ "." +:+ fsErr +:+ ")".

End Library.

(** The diagnostic of [createDiagnostic] for the replacement text. *)
Definition diagnosticOf (call : Call) (fName replacement : string)
  : Diagnostic :=
  mkDiagnostic (hPos (callHdr call))
    ("os." +:+ fName +:+ " is deprecated, use " +:+ replacement
     +:+ " instead")
    [mkSuggestedFix ("Replace with " +:+ replacement)
       [mkTextEdit (hPos (callHdr call)) (hEnd (callHdr call))
          replacement]].

End OserrorsVocabulary.

(** ** Sample inputs *)

Module Samples.

Import ast analysis.
Local Open Scope string_scope.

(** [context.Context]. *)
Definition contextType : types.Type_ :=
  types.Named
    (Some (types.mkTypeName (Some (types.mkPackage "context")) "Context")).

(** Types of the sample programs: [ctx] is a [context.Context], [nil]
    is the untyped nil, every other identifier is a [bool]; calls and
    the remaining expressions are typed [bool] as well. *)
Definition typeOf (e : Expr) : option types.Type_ :=
  match e with
  | Ident _ name =>
      if String.eqb name "ctx" then Some contextType
      else if String.eqb name "nil" then Some (types.Unnamed "untyped nil")
      else Some (types.Unnamed "bool")
  | _ => Some (types.Unnamed "bool")
  end.

Definition ident (a p : Z) (name : string) : Expr :=
  Ident (mkHdr a p (p + Z.of_nat (String.length name))) name.

Definition binaryExpr (a : Z) (x : Expr) (op : token.Token) (y : Expr)
  : BinaryExpr :=
  mkBinaryExpr (mkHdr a (hPos (exprHdr x)) (hEnd (exprHdr y))) x op y.

Definition binary (a : Z) (x : Expr) (op : token.Token) (y : Expr) : Expr :=
  EBinary (binaryExpr a x op y).

Definition paren (a lparen : Z) (x : Expr) : Expr :=
  ParenExpr (mkHdr a lparen (hEnd (exprHdr x) + 1)) x.

Definition call (a : Z) (fn : Expr) (args : list Expr) (rparen : Z) : Expr :=
  CallExpr (mkHdr a (hPos (exprHdr fn)) (rparen + 1)) fn args.

Definition block (a lbrace rbrace : Z) (l : list Stmt) : BlockStmt :=
  mkBlockStmt (mkHdr a lbrace (rbrace + 1)) l.

Definition exprStmt (a : Z) (x : Expr) : Stmt :=
  ExprStmt (mkHdr a (hPos (exprHdr x)) (hEnd (exprHdr x))) x.

Definition func (a : Z) (doc : option CommentGroup) (body : BlockStmt)
    (p : Z) : Decl :=
  FuncDecl (mkHdr a p (hEnd (blockHdr body))) doc (Some body).

(** [if (ctx != nil) { f() }] at offset 100. *)
Definition parenGuard : Expr :=
  paren 11 103 (binary 12 (ident 13 104 "ctx") token.NEQ (ident 14 111 "nil")).

Definition ifParen : IfStmt :=
  mkIfStmt (mkHdr 10 100 123) None parenGuard
    (block 15 116 122 [exprStmt 16 (call 17 (ident 18 118 "f") [] 120)])
    None.

(** [if ctx != nil { f() } else { g() }] at offset 100, and the same
    statement with the consequent [{ launch() }]. *)
Definition ctxNeNilExpr (a p : Z) : BinaryExpr :=
  binaryExpr a (ident (a + 1) p "ctx") token.NEQ
    (ident (a + 2) (p + 7) "nil").

Definition ctxEqNilExpr (a p : Z) : BinaryExpr :=
  binaryExpr a (ident (a + 1) p "ctx") token.EQL
    (ident (a + 2) (p + 7) "nil").

Definition ctxNeNil (a p : Z) : Expr := EBinary (ctxNeNilExpr a p).

Definition ctxEqNil (a p : Z) : Expr := EBinary (ctxEqNilExpr a p).

Definition elseBlock (lbrace : Z) : Stmt :=
  SBlock (block 28 lbrace (lbrace + 6)
            [exprStmt 29 (call 30 (ident 31 (lbrace + 2) "g") []
                            (lbrace + 4))]).

Definition ifElse : IfStmt :=
  mkIfStmt (mkHdr 20 100 134) None (ctxNeNil 21 103)
    (block 24 114 120 [exprStmt 25 (call 26 (ident 27 116 "f") [] 118)])
    (Some (elseBlock 127)).

Definition ifElse' : IfStmt :=
  mkIfStmt (mkHdr 20 100 139) None (ctxNeNil 21 103)
    (block 24 114 125 [exprStmt 25 (call 26 (ident 27 116 "launch") [] 123)])
    (Some (elseBlock 132)).

(** [ctx != nil && isReady()] and [ctx != nil && s.ready]. *)
Definition andCall : BinaryExpr :=
  binaryExpr 40 (ctxNeNil 41 103) token.LAND
    (call 44 (ident 45 117 "isReady") [] 125).

Definition andSelector : BinaryExpr :=
  binaryExpr 40 (ctxNeNil 41 103) token.LAND
    (SelectorExpr (mkHdr 44 117 124) (ident 45 117 "s") "ready").

(** [true && (ready && ctx != nil)] and its mirror image
    [(ready && ctx != nil) && true]. *)
Definition readyAndCtx (a p : Z) : Expr :=
  paren a p
    (binary (a + 1) (ident (a + 2) (p + 1) "ready") token.LAND
       (ctxNeNil (a + 3) (p + 10))).

Definition trueAndParen : BinaryExpr :=
  binaryExpr 50 (ident 51 103 "true") token.LAND (readyAndCtx 52 111).

Definition parenAndTrue : BinaryExpr :=
  binaryExpr 50 (readyAndCtx 52 103) token.LAND (ident 51 128 "true").

(** [ctx != nil && ctx == nil], [ctx == nil || ctx != nil]. *)
Definition trueAndFalse : BinaryExpr :=
  binaryExpr 60 (ctxNeNil 61 103) token.LAND (ctxEqNil 64 117).

Definition falseOrTrue : BinaryExpr :=
  binaryExpr 60 (ctxEqNil 61 103) token.LOR (ctxNeNil 64 117).

(** A file with one function starting at offset [p],
<<
    func run(ctx context.Context) {
            if ctx != nil && check(ctx == nil) {
            }
    }
>>
    whose [if] statement starts at offset [q = p + 33]. *)
Definition guardWithCall (q : Z) : Expr :=
  binary 71 (ctxNeNil 72 (q + 3)) token.LAND
    (call 75 (ident 76 (q + 17) "check") [ctxEqNil 77 (q + 23)] (q + 33)).

Definition ifCall (q : Z) : IfStmt :=
  mkIfStmt (mkHdr 70 q (q + 39)) None (guardWithCall q)
    (block 80 (q + 35) (q + 38) []) None.

Definition funcCall (doc : option CommentGroup) (p : Z) : Decl :=
  func 81 doc (block 82 (p + 30) (p + 73) [SIf (ifCall (p + 33))]) p.

Definition fileCall : File := mkFile [funcCall None 11] [] 0.

(** The file set of a pass whose only file is [a.go], without line
    directives: every position is one of that file. *)
Definition fileSet : token.FileSet := token.mkFileSet (fun _ => "a.go").

Definition passCall : Pass := mkPass [fileCall] typeOf.

(** The same function below a free-standing directive comment that
    occupies the offsets 11 to 36: two lines below it (the [if]
    statement at offset 71), and much further down (the [if] statement
    at offset 433). *)
Definition ignoreComment (p : Z) : CommentGroup :=
  mkCommentGroup p (p + 25) [mkComment (str "//godernize:ignore=ctxnil")].

Definition fileNear : File :=
  mkFile [funcCall None 38] [ignoreComment 11] 0.

Definition fileFar : File :=
  mkFile [funcCall None 400] [ignoreComment 11] 0.

(** [ready && ctx != nil] used as a value. *)
Definition readyAnd : BinaryExpr :=
  binaryExpr 90 (ident 91 50 "ready") token.LAND (ctxNeNil 92 59).

End Samples.

(** ** Further sample inputs *)

Module MoreSamples.

Import ast analysis.
Local Open Scope string_scope.

(** The doc comment of [testIgnored] in the test data, followed by one
    more directive. *)
Definition docBefore : list Comment :=
  [mkComment (str "// Test ignore functionality"); mkComment (str "//")].

Definition docDirective : Comment :=
  mkComment (str "//godernize:ignore=ctxnil").

Definition docAfter : list Comment :=
  [mkComment (str "//godernize:ignore")].

Definition listedNames : list gostring :=
  [str "IsNotExist"; str "IsExist"].

(** [ready] *)
Definition ready : Expr := Samples.ident 45 117 "ready".

(** [if ctx == nil { panic() }] at offset 100. *)
Definition ifNil : IfStmt :=
  mkIfStmt (mkHdr 20 100 125) None (Samples.ctxEqNil 21 103)
    (Samples.block 24 114 124
       [Samples.exprStmt 25
          (Samples.call 26 (Samples.ident 27 116 "panic") [] 122)])
    None.

(** [if ctx != nil && ready { }] at offset 100. *)
Definition ifReady : IfStmt :=
  mkIfStmt (mkHdr 39 100 130) None
    (EBinary
       (mkBinaryExpr (mkHdr 40 103 122) (Samples.ctxNeNil 41 103)
          token.LAND ready))
    (Samples.block 46 123 129 []) None.

(** The diagnostic for the guard of the [if] statement of
    [Samples.passCall]. *)
Definition guardDiagnostic : Diagnostic :=
  mkDiagnostic 47 "simplify to 'expr' (left side is always true)"
    [mkSuggestedFix "Replace condition with 'expr'"
       [mkTextEdit 47 78 "expr"]].

(** The function of [Samples.passCall] with the directive
    [//godernize:ignore=ctxnil] as its doc comment. *)
Definition passIgnored : Pass :=
  mkPass
    [mkFile [Samples.funcCall (Some (Samples.ignoreComment 11)) 37]
       [Samples.ignoreComment 11] 0]
    Samples.typeOf.

(** The file set of [a.go] when a line directive such as
    [//line gen.go:1] precedes the offset [p]: the positions from [p]
    on are positions of [gen.go]. *)
Definition lineFileSet (p : Z) : token.FileSet :=
  token.mkFileSet (fun q => if (q <? p)%Z then "a.go" else "gen.go").

(** [(ctx == nil) && ctx != nil] and [(ctx != nil) || ctx == nil] at
    offset 103, and [if (ctx != nil) || ctx == nil { f() }] at offset
    100. *)
Definition parenFalseAndTrue : BinaryExpr :=
  Samples.binaryExpr 60 (Samples.paren 61 103 (Samples.ctxEqNil 62 104))
    token.LAND (Samples.ctxNeNil 65 119).

Definition parenTrueOrFalse : BinaryExpr :=
  Samples.binaryExpr 60 (Samples.paren 61 103 (Samples.ctxNeNil 62 104))
    token.LOR (Samples.ctxEqNil 65 119).

Definition ifParenTrueOrFalse : IfStmt :=
  mkIfStmt (mkHdr 59 100 137) None (EBinary parenTrueOrFalse)
    (Samples.block 68 130 136
       [Samples.exprStmt 69
          (Samples.call 70 (Samples.ident 71 132 "f") [] 134)])
    None.

(** Library functions for the sample files: quoting of a path without
    special characters, the last element of a slash-separated path, and
    the text of an identifier. *)
Definition quote : string := String (ascii_of_nat 34) EmptyString.

Definition sampleQuote (s : string) : string := quote +:+ s +:+ quote.

Fixpoint lastElement (s acc : string) : string :=
  match s with
  | EmptyString => acc
  | String c s' =>
      if Ascii.eqb c "/" then lastElement s' EmptyString
      else lastElement s' (acc +:+ String c EmptyString)
  end.

Definition sampleBase (path : string) : string :=
  lastElement path EmptyString.

Definition sampleFormat (e : Expr) : option string :=
  match e with
  | Ident _ name => Some name
  | _ => None
  end.

(** The file
<<
      package a

      import "os"

      func check(err error) bool {
              return os.IsNotExist(err)
      }
>>
      with positions counted from 1, and the same file with a doc comment
      of [n] characters and a line break before [func]. *)
Definition osCall (n : Z) : oserrors.Call :=
  oserrors.mkCall (mkHdr 204 (62 + n) (80 + n))
    (SelectorExpr (mkHdr 205 (62 + n) (75 + n))
       (Samples.ident 206 (62 + n) "os") "IsNotExist")
    [Samples.ident 207 (76 + n) "err"].

Definition osFunc (doc : option CommentGroup) (n : Z) : Decl :=
  FuncDecl (mkHdr 201 (25 + n) (82 + n)) doc
    (Some (Samples.block 202 (52 + n) (81 + n)
             [ReturnStmt (mkHdr 203 (55 + n) (80 + n))
                [CallExpr (oserrors.callHdr (osCall n))
                   (oserrors.Fun (osCall n)) (oserrors.Args (osCall n))]])).

Definition osImport : option oserrors.ImportSpec :=
  Some (oserrors.mkImportSpec None (Some (sampleQuote "os"))).

Definition osFile : oserrors.SourceFile :=
  oserrors.mkSourceFile (mkFile [osFunc None 0] [] 1) 82 [osImport].

Definition osDirective : CommentGroup :=
  mkCommentGroup 25 54 [mkComment (str "//godernize:ignore=IsNotExist")].

Definition osFileIgnored : oserrors.SourceFile :=
  oserrors.mkSourceFile
    (mkFile [osFunc (Some osDirective) 30] [osDirective] 1) 112
    [osImport].

End MoreSamples.

(** ** Properties of the ignore directives *)

Section DirectiveProperties.

Import strings directive.

Lemma TrimLeft_spaces (ws s : gostring) :
  forallb isSpace ws = true -> TrimLeft (ws ++ s) = TrimLeft s.
Proof.
  induction ws as [|c ws IH]; simpl; [reflexivity|].
  intros H. apply andb_prop in H as [Hc Hws].
  rewrite Hc. auto.
Qed.

Lemma TrimLeft_solid (s t : gostring) :
  startsSolid s = true -> TrimLeft (s ++ t) = s ++ t.
Proof.
  destruct s as [|c s]; simpl; [discriminate|].
  intros H. apply negb_true_iff in H. now rewrite H.
Qed.

Lemma forallb_rev {A} (f : A -> bool) (l : list A) :
  forallb f l = true -> forallb f (rev l) = true.
Proof.
  rewrite !forallb_forall. intros H x Hx. apply H. now apply in_rev.
Qed.

(** Padding a text that starts and ends with a non-space code point
    with white space on both sides is undone by [TrimSpace]. *)
Lemma TrimSpace_pad (ws1 ws2 core : gostring) :
  forallb isSpace ws1 = true ->
  forallb isSpace ws2 = true ->
  startsSolid core = true ->
  startsSolid (rev core) = true ->
  TrimSpace (ws1 ++ core ++ ws2) = core.
Proof.
  intros H1 H2 Hs He. unfold TrimSpace, TrimRight.
  rewrite (TrimLeft_spaces _ _ H1), (TrimLeft_solid _ _ Hs).
  rewrite rev_app_distr, (TrimLeft_spaces _ _ (forallb_rev _ _ H2)).
  rewrite <- (app_nil_r (rev core)), (TrimLeft_solid _ _ He), app_nil_r.
  apply rev_involutive.
Qed.

Lemma hasName_In (i : Ignore) (name : gostring) :
  hasName i name = true <-> In name (Names i).
Proof.
  unfold hasName. rewrite existsb_exists. split.
  - intros (n & Hin & Heq). apply bool_decide_eq_true in Heq. now subst.
  - intros Hin. exists name. split; [assumption|].
    now apply bool_decide_eq_true.
Qed.

(** C7. [ShouldIgnore] answers [true] for every name when the directive
    has no names, and otherwise exactly for the names of its list
    (equality of strings, so upper and lower case differ); a comment
    [//godernize:ignore=] followed by nothing but white space parses to
    the directive without names. *)
Theorem ShouldIgnore_blanket_or_listed :
  (forall (i : Ignore) (name : gostring),
      (Names i = [] -> ShouldIgnore i name = true)
      /\ (Names i <> [] ->
          (ShouldIgnore i name = true <-> In name (Names i))))
  /\ (forall (ws1 ws2 : gostring) (p e : Z) (rest : list Comment),
         forallb isSpace ws1 = true ->
         forallb isSpace ws2 = true ->
         ParseIgnore
           (Some (mkCommentGroup p e
                    (mkComment (ws1 ++ str "//godernize:ignore=" ++ ws2)
                     :: rest)))
         = Some (mkIgnore [])).
Proof.
  split.
  - intros i name. unfold ShouldIgnore. split.
    + intros ->. reflexivity.
    + intros Hne. destruct (Names i) as [|n ns] eqn:E; [congruence|].
      simpl length. simpl Nat.eqb. rewrite hasName_In, E. reflexivity.
  - intros ws1 ws2 p e rest H1 H2.
    cbn [ParseIgnore cgList parseList]. unfold parseComment. cbn [Text].
    rewrite (TrimSpace_pad ws1 ws2 (str "//godernize:ignore=") H1 H2
               eq_refl eq_refl).
    reflexivity.
Qed.

(** The directive is blanket for [//godernize:ignore=] followed by a
    blank and a tab; [ctxnil] is listed in [ctxnil,IsExist], and
    [CtxNil] is not. *)
Lemma ShouldIgnore_blanket_or_listed_witness :
  ParseIgnore
    (Some (mkCommentGroup 11 32
             [mkComment (str "//godernize:ignore=" ++ [32; 9]%N)]))
  = Some (mkIgnore [])
  /\ ShouldIgnore (mkIgnore []) (str "ctxnil") = true
  /\ (ShouldIgnore (mkIgnore [str "ctxnil"; str "IsExist"]) (str "ctxnil")
      = true
      <-> In (str "ctxnil") [str "ctxnil"; str "IsExist"])
  /\ (ShouldIgnore (mkIgnore [str "ctxnil"; str "IsExist"]) (str "CtxNil")
      = true
      <-> In (str "CtxNil") [str "ctxnil"; str "IsExist"]).
Proof.
  destruct ShouldIgnore_blanket_or_listed as [Hlookup Hparse].
  split; [|split; [|split]].
  - apply (Hparse [] [32; 9]%N 11 32 []); reflexivity.
  - apply (proj1 (Hlookup (mkIgnore []) (str "ctxnil"))). reflexivity.
  - apply (proj2 (Hlookup (mkIgnore [str "ctxnil"; str "IsExist"])
                    (str "ctxnil"))).
    simpl. discriminate.
  - apply (proj2 (Hlookup (mkIgnore [str "ctxnil"; str "IsExist"])
                    (str "CtxNil"))).
    simpl. discriminate.
Defined.

End DirectiveProperties.

(** ** Properties of the classifier and of the suppression by proximity *)

Section ClassifierProperties.

Import ast analysis ctxnil.
Local Open Scope string_scope.

Lemma int_sub_exact (a b : Z) :
  0 <= b -> b <= a -> a <= int_max -> int_sub a b = a - b.
Proof.
  unfold int_sub, wrap_int, int_max. intros Hb Hab Ha.
  rewrite Z.mod_small; lia.
Qed.

(** C8. A directive comment suppresses a node by proximity exactly when
    it ends at or before the start of the node and at most 200
    characters before it; with no such comment in the file there is no
    suppression by proximity. *)
Theorem shouldIgnoreFromComment_window
    (f : File) (node : Node) (analyzerName : gostring) :
  hPos (nodeHdr node) <= int_max ->
  (forall cg, In cg (Comments f) -> 0 <= cgEnd cg) ->
  (shouldIgnoreFromComment (Some f) node analyzerName = true
   <-> exists cg,
        In cg (Comments f)
        /\ cgEnd cg <= hPos (nodeHdr node)
        /\ hPos (nodeHdr node) - cgEnd cg <= 200
        /\ ignores (Some cg) analyzerName = true)
  /\ ((forall cg, In cg (Comments f) ->
         hPos (nodeHdr node) < cgEnd cg
         \/ 200 < hPos (nodeHdr node) - cgEnd cg) ->
      shouldIgnoreFromComment (Some f) node analyzerName = false).
Proof.
  intros Hmax Hpos.
  assert (Hiff :
    shouldIgnoreFromComment (Some f) node analyzerName = true
    <-> exists cg,
        In cg (Comments f)
        /\ cgEnd cg <= hPos (nodeHdr node)
        /\ hPos (nodeHdr node) - cgEnd cg <= 200
        /\ ignores (Some cg) analyzerName = true).
  { unfold shouldIgnoreFromComment. rewrite existsb_exists. split.
    - intros (cg & Hin & H).
      apply andb_prop in H as [H Hig]. apply andb_prop in H as [Hle Hgap].
      apply Z.leb_le in Hle, Hgap.
      rewrite int_sub_exact in Hgap by auto.
      exists cg. auto.
    - intros (cg & Hin & Hle & Hgap & Hig). exists cg.
      split; [assumption|].
      rewrite int_sub_exact by auto.
      apply Z.leb_le in Hle, Hgap. now rewrite Hle, Hgap, Hig. }
  split; [exact Hiff|].
  intros Hout. apply not_true_is_false. intros E.
  apply Hiff in E as (cg & Hin & Hle & Hgap & _).
  destruct (Hout cg Hin); lia.
Qed.

(** The directive comment two lines above the [if] statement suppresses
    it; the same comment 397 characters above it does not. *)
Lemma shouldIgnoreFromComment_window_witness :
  shouldIgnoreFromComment (Some Samples.fileNear)
    (NIf (Samples.ifCall 71)) (str "ctxnil") = true
  /\ shouldIgnoreFromComment (Some Samples.fileFar)
       (NIf (Samples.ifCall 433)) (str "ctxnil") = false.
Proof.
  split.
  - apply (proj1 (shouldIgnoreFromComment_window Samples.fileNear
                    (NIf (Samples.ifCall 71)) (str "ctxnil")
                    ltac:(unfold int_max; simpl; lia)
                    ltac:(intros cg [<- | []]; simpl; lia))).
    exists (Samples.ignoreComment 11).
    split; [left; reflexivity|].
    split; [simpl; lia|]. split; [simpl; lia|reflexivity].
  - apply (proj2 (shouldIgnoreFromComment_window Samples.fileFar
                    (NIf (Samples.ifCall 433)) (str "ctxnil")
                    ltac:(unfold int_max; simpl; lia)
                    ltac:(intros cg [<- | []]; simpl; lia))).
    intros cg [<- | []]. right. simpl. lia.
Defined.

Lemma analyze_connective (pass : Pass) (expr : BinaryExpr) :
  Op expr = token.LAND \/ Op expr = token.LOR ->
  analyzeContextNilComparison pass expr = (None, None, false).
Proof.
  unfold analyzeContextNilComparison. intros [-> | ->]; reflexivity.
Qed.

Lemma analyze_applicable (pass : Pass) (expr : BinaryExpr)
    (c n : Expr) (isEqual : bool) :
  analyzeContextNilComparison pass expr = (Some c, Some n, isEqual) ->
  (Op expr = token.EQL \/ Op expr = token.NEQ)
  /\ isEqual = token.eqb (Op expr) token.EQL.
Proof.
  unfold analyzeContextNilComparison.
  destruct (Op expr); simpl; try discriminate;
    repeat match goal with
           | |- context [if ?b then _ else _] => destruct b
           end;
    intros [= <- <- <-]; auto.
Qed.

(** C6. A comparison of a [context.Context] operand with the [nil]
    identifier gets the same verdict, and folds to the same literal,
    whichever of the two operands is written first. *)
Theorem analyzeContextNilComparison_symmetric
    (pass : Pass) (h1 h2 : Hdr) (c n : Expr) (op : token.Token) :
  op = token.EQL \/ op = token.NEQ ->
  isContextType pass c = true ->
  isContextType pass n = false ->
  isNilIdent n = true ->
  let cn := mkBinaryExpr h1 c op n in
  let nc := mkBinaryExpr h2 n op c in
  let literal := if token.eqb op token.EQL then "false" else "true" in
  analyzeContextNilComparison pass cn
  = (Some c, Some n, token.eqb op token.EQL)
  /\ analyzeContextNilComparison pass nc
     = analyzeContextNilComparison pass cn
  /\ (exists m1 m2,
        buildReplacementCondition pass (EBinary cn)
        = Some (mkReplacementCondition literal true m1)
        /\ buildReplacementCondition pass (EBinary nc)
           = Some (mkReplacementCondition literal true m2)).
Proof.
  intros Hop Hc Hn Hnil cn nc literal.
  assert (Hcn : analyzeContextNilComparison pass cn
                = (Some c, Some n, token.eqb op token.EQL)).
  { unfold analyzeContextNilComparison, cn. cbn [X Y Op].
    rewrite Hc, Hnil. destruct Hop as [-> | ->]; reflexivity. }
  assert (Hnc : analyzeContextNilComparison pass nc
                = (Some c, Some n, token.eqb op token.EQL)).
  { unfold analyzeContextNilComparison, nc. cbn [X Y Op].
    rewrite Hc, Hn, Hnil. destruct Hop as [-> | ->]; reflexivity. }
  split; [exact Hcn|]. split; [now rewrite Hnc, Hcn|].
  eexists _, _. cbn [buildReplacementCondition]. unfold handleBinaryExpr.
  rewrite Hcn, Hnc. unfold literal.
  destruct Hop as [-> | ->]; split; reflexivity.
Qed.

(** [ctx == nil] and [nil == ctx] in the sample typing. *)
Lemma analyzeContextNilComparison_symmetric_witness :
  let c := Samples.ident 1 103 "ctx" in
  let n := Samples.ident 2 110 "nil" in
  analyzeContextNilComparison (mkPass [] Samples.typeOf)
    (mkBinaryExpr (mkHdr 3 103 113) n token.EQL c)
  = analyzeContextNilComparison (mkPass [] Samples.typeOf)
      (mkBinaryExpr (mkHdr 0 103 113) c token.EQL n).
Proof.
  intros c n.
  apply (analyzeContextNilComparison_symmetric
           (mkPass [] Samples.typeOf) (mkHdr 0 103 113) (mkHdr 3 103 113)
           c n token.EQL);
    [left; reflexivity | reflexivity | reflexivity | reflexivity].
Defined.

End ClassifierProperties.

(** ** Induction principles *)

(** Induction over expressions and statements, with the hypotheses for
    the operands of a binary expression, the arguments of a call and the
    statements of a block. *)
Section ExprInduction.

Import ast.

Variable P : Expr -> Prop.
Hypothesis HBinary :
  forall h x op y, P x -> P y -> P (EBinary (mkBinaryExpr h x op y)).
Hypothesis HUnary : forall h op x, P x -> P (UnaryExpr h op x).
Hypothesis HParen : forall h x, P x -> P (ParenExpr h x).
Hypothesis HIdent : forall h name, P (Ident h name).
Hypothesis HBasicLit : forall h value, P (BasicLit h value).
Hypothesis HSelector : forall h x sel, P x -> P (SelectorExpr h x sel).
Hypothesis HCall :
  forall h fn args, P fn -> Forall P args -> P (CallExpr h fn args).

Fixpoint Expr_nested_ind (e : Expr) : P e :=
  match e with
  | EBinary (mkBinaryExpr h x op y) =>
      HBinary h x op y (Expr_nested_ind x) (Expr_nested_ind y)
  | UnaryExpr h op x => HUnary h op x (Expr_nested_ind x)
  | ParenExpr h x => HParen h x (Expr_nested_ind x)
  | Ident h name => HIdent h name
  | BasicLit h value => HBasicLit h value
  | SelectorExpr h x sel => HSelector h x sel (Expr_nested_ind x)
  | CallExpr h fn args =>
      HCall h fn args (Expr_nested_ind fn)
        ((fix all (l : list Expr) : Forall P l :=
            match l with
            | [] => @List.Forall_nil _ P
            | a :: l' => @List.Forall_cons _ P a l' (Expr_nested_ind a) (all l')
            end) args)
  end.

End ExprInduction.

Section StmtInduction.

Import ast.

Variable P : Stmt -> Prop.

Definition OptionAll (o : option Stmt) : Prop :=
  match o with
  | Some s => P s
  | None => True
  end.

Hypothesis HBlock :
  forall h l, Forall P l -> P (SBlock (mkBlockStmt h l)).
Hypothesis HIf :
  forall h init cond bh bl els,
    OptionAll init -> Forall P bl -> OptionAll els ->
    P (SIf (mkIfStmt h init cond (mkBlockStmt bh bl) els)).
Hypothesis HExprStmt : forall h x, P (ExprStmt h x).
Hypothesis HAssign : forall h lhs rhs, P (AssignStmt h lhs rhs).
Hypothesis HReturn : forall h results, P (ReturnStmt h results).

Fixpoint Stmt_nested_ind (s : Stmt) : P s :=
  let all :=
    fix all (l : list Stmt) : Forall P l :=
      match l with
      | [] => @List.Forall_nil _ P
      | a :: l' => @List.Forall_cons _ P a l' (Stmt_nested_ind a) (all l')
      end in
  let opt (o : option Stmt) : OptionAll o :=
    match o with
    | Some s' => Stmt_nested_ind s'
    | None => I
    end in
  match s with
  | SBlock (mkBlockStmt h l) => HBlock h l (all l)
  | SIf (mkIfStmt h init cond (mkBlockStmt bh bl) els) =>
      HIf h init cond bh bl els (opt init) (all bl) (opt els)
  | ExprStmt h x => HExprStmt h x
  | AssignStmt h lhs rhs => HAssign h lhs rhs
  | ReturnStmt h results => HReturn h results
  end.

End StmtInduction.

(** ** Properties of the simplifier *)

Section SimplifierProperties.

Import ast analysis ctxnil Vocabulary.
Local Open Scope string_scope.

Lemma build_connective (pass : Pass) (expr : BinaryExpr) :
  Op expr = token.LAND \/ Op expr = token.LOR ->
  buildReplacementCondition pass (EBinary expr)
  = handleLogicalExpr (buildReplacementCondition pass) expr.
Proof.
  intros Hop. cbn [buildReplacementCondition]. unfold handleBinaryExpr.
  rewrite (analyze_connective pass expr Hop).
  destruct Hop as [-> | ->]; reflexivity.
Qed.

(** When both operands of a connective fold to literal results, a
    result spelled [false] decides [&&] and a result spelled [true]
    decides [||], with the short-circuit message, whatever the other
    literal is (so also where collapsing to the other side would
    apply); the left operand is tested first. *)
Theorem short_circuit_before_collapse
    (pass : Pass) (h : Hdr) (x y : Expr) (l r : ReplacementCondition) :
  buildReplacementCondition pass x = Some l ->
  buildReplacementCondition pass y = Some r ->
  IsLiteral l = true ->
  IsLiteral r = true ->
  (NewCondition l = "false" ->
   buildReplacementCondition pass (EBinary (mkBinaryExpr h x token.LAND y))
   = Some (mkReplacementCondition "false" true
             "condition is always false (left side is false)"))
  /\ (NewCondition l <> "false" -> NewCondition r = "false" ->
      buildReplacementCondition pass
        (EBinary (mkBinaryExpr h x token.LAND y))
      = Some (mkReplacementCondition "false" true
                "condition is always false (right side is false)"))
  /\ (NewCondition l = "true" ->
      buildReplacementCondition pass
        (EBinary (mkBinaryExpr h x token.LOR y))
      = Some (mkReplacementCondition "true" true
                "condition is always true (left side is true)"))
  /\ (NewCondition l <> "true" -> NewCondition r = "true" ->
      buildReplacementCondition pass
        (EBinary (mkBinaryExpr h x token.LOR y))
      = Some (mkReplacementCondition "true" true
                "condition is always true (right side is true)")).
Proof.
  intros Hx Hy Hl Hr.
  repeat split; intros;
    rewrite build_connective by (cbn [Op]; auto);
    unfold handleLogicalExpr; cbn [X Y Op]; rewrite Hx, Hy;
    cbn [token.eqb];
    unfold simplifyAndExpr, checkAndShortCircuit,
      simplifyOrExpr, checkOrShortCircuit, isLit;
    rewrite Hl, Hr; cbn [andb];
    repeat match goal with
           | H : NewCondition _ = _ |- _ => rewrite H
           | H : NewCondition _ <> _ |- _ =>
               apply String.eqb_neq in H; unfold falseValue, trueValue;
               rewrite H
           end;
    reflexivity.
Qed.

(** [ctx != nil && ctx == nil] and [ctx == nil || ctx != nil]: the right
    operand decides, although the left one alone would collapse the
    connective to the right operand. *)
Lemma short_circuit_before_collapse_witness :
  buildReplacementCondition (mkPass [] Samples.typeOf)
    (EBinary Samples.trueAndFalse)
  = Some (mkReplacementCondition "false" true
            "condition is always false (right side is false)")
  /\ buildReplacementCondition (mkPass [] Samples.typeOf)
       (EBinary Samples.falseOrTrue)
     = Some (mkReplacementCondition "true" true
               "condition is always true (right side is true)").
Proof.
  split.
  - refine (proj1 (proj2 (short_circuit_before_collapse
             (mkPass [] Samples.typeOf) (mkHdr 60 103 127)
             (Samples.ctxNeNil 61 103) (Samples.ctxEqNil 64 117)
             _ _ eq_refl eq_refl eq_refl eq_refl)) _ eq_refl).
    simpl. discriminate.
  - refine (proj2 (proj2 (proj2 (short_circuit_before_collapse
             (mkPass [] Samples.typeOf) (mkHdr 60 103 127)
             (Samples.ctxEqNil 61 103) (Samples.ctxNeNil 64 117)
             _ _ eq_refl eq_refl eq_refl eq_refl))) _ eq_refl).
    simpl. discriminate.
Defined.

(** On the collapse checks the left operand is tested first as well:
    with both operands spelled [true], [&&] collapses to the right
    operand because of the left one, and likewise [||] with both
    operands spelled [false]. *)
Lemma collapse_left_before_right
    (pass : Pass) (h : Hdr) (x y : Expr) (l r : ReplacementCondition) :
  buildReplacementCondition pass x = Some l ->
  buildReplacementCondition pass y = Some r ->
  IsLiteral l = true ->
  IsLiteral r = true ->
  (NewCondition l = "true" -> NewCondition r = "true" ->
   buildReplacementCondition pass (EBinary (mkBinaryExpr h x token.LAND y))
   = Some (mkReplacementCondition "true" true
             "simplify to 'true' (left side is always true)"))
  /\ (NewCondition l = "false" -> NewCondition r = "false" ->
      buildReplacementCondition pass
        (EBinary (mkBinaryExpr h x token.LOR y))
      = Some (mkReplacementCondition "false" true
                "simplify to 'false' (left side is always false)")).
Proof.
  intros Hx Hy Hl Hr.
  split; intros Hlt Hrt;
    rewrite build_connective by (cbn [Op]; auto);
    unfold handleLogicalExpr; cbn [X Y Op]; rewrite Hx, Hy;
    cbn [token.eqb];
    unfold simplifyAndExpr, checkAndShortCircuit, checkAndSimplification,
      simplifyOrExpr, checkOrShortCircuit, checkOrSimplification,
      isLiteralExpr, isLit;
    rewrite Hl, Hr, Hlt, Hrt; reflexivity.
Qed.

(** C4. The claim fails on operands in parentheses. Both operands of
    [(ctx == nil) && ctx != nil] fold to literal results, the left one
    with the text [(false)]; no short-circuit test recognises it, and
    the connective collapses to the left operand with the message of
    the collapse rule instead of being decided by the literal [false].
    In the same way [(ctx != nil) || ctx == nil] collapses to [(true)],
    and the [if] statement with that guard, which is always true, gets
    the diagnostic of a guard that is always false. *)
Theorem paren_literal_operand_collapses :
  buildReplacementCondition (mkPass [] Samples.typeOf)
    (X MoreSamples.parenFalseAndTrue)
  = Some (mkReplacementCondition "(false)" true
            "context nil comparison 'ctx == nil' is always false")
  /\ buildReplacementCondition (mkPass [] Samples.typeOf)
       (Y MoreSamples.parenFalseAndTrue)
     = Some (mkReplacementCondition "true" true
               "context nil comparison 'ctx != nil' is always true")
  /\ buildReplacementCondition (mkPass [] Samples.typeOf)
       (EBinary MoreSamples.parenFalseAndTrue)
     = Some (mkReplacementCondition "(false)" true
               "simplify to '(false)' (right side is always true)")
  /\ buildReplacementCondition (mkPass [] Samples.typeOf)
       (EBinary MoreSamples.parenTrueOrFalse)
     = Some (mkReplacementCondition "(true)" true
               "simplify to '(true)' (right side is always false)")
  /\ diagnoseIfStmt (mkPass [] Samples.typeOf) None
       MoreSamples.ifParenTrueOrFalse
     = Some (mkDiagnostic 100
               "condition is always false, remove entire if statement"
               [mkSuggestedFix "Remove if statement"
                  [mkTextEdit 100 137 EmptyString]]).
Proof. repeat split; vm_compute; reflexivity. Qed.

Lemma isLiteralExpr_spelled (text : string)
    (rep : option ReplacementCondition) :
  spelledOpt rep ->
  (forall r, rep = Some r -> NewCondition r = text) ->
  isLiteralExpr text rep = true ->
  text = trueValue \/ text = falseValue.
Proof.
  intros Hrep Htext. unfold isLiteralExpr.
  destruct (String.eqb_spec text trueValue); [auto|].
  destruct (String.eqb_spec text falseValue); [auto|].
  rewrite !orb_false_r. destruct rep as [r|]; cbn; [|discriminate].
  intros Hlit. rewrite <- (Htext r eq_refl). now apply (Hrep r).
Qed.

Lemma simplifyAndExpr_spelled (lt rt : string)
    (l r : option ReplacementCondition) :
  spelledOpt l -> spelledOpt r ->
  (forall x, l = Some x -> NewCondition x = lt) ->
  (forall x, r = Some x -> NewCondition x = rt) ->
  spelledOpt (simplifyAndExpr lt rt l r).
Proof.
  intros Hl Hr Hlt Hrt res. unfold simplifyAndExpr, checkAndShortCircuit,
    checkAndSimplification, buildAndReplacement.
  repeat match goal with
         | |- context [if ?b then _ else _] => destruct b eqn:?
         end;
    intros [= <-]; unfold spelled; cbn [IsLiteral NewCondition]; auto;
    try discriminate; eauto using isLiteralExpr_spelled.
Qed.

Lemma simplifyOrExpr_spelled (lt rt : string)
    (l r : option ReplacementCondition) :
  spelledOpt l -> spelledOpt r ->
  (forall x, l = Some x -> NewCondition x = lt) ->
  (forall x, r = Some x -> NewCondition x = rt) ->
  spelledOpt (simplifyOrExpr lt rt l r).
Proof.
  intros Hl Hr Hlt Hrt res. unfold simplifyOrExpr, checkOrShortCircuit,
    checkOrSimplification, buildOrReplacement.
  repeat match goal with
         | |- context [if ?b then _ else _] => destruct b eqn:?
         end;
    intros [= <-]; unfold spelled; cbn [IsLiteral NewCondition]; auto;
    try discriminate; eauto using isLiteralExpr_spelled.
Qed.

(** Without parenthesized expressions the invariant holds: every result
    flagged literal is spelled [true] or [false]. *)
Lemma literal_text_without_parens (pass : Pass) (e : Expr) :
  parenFree e = true -> spelledOpt (buildReplacementCondition pass e).
Proof.
  induction e using Expr_nested_ind; intros Hfree;
    cbn [parenFree X Y Op] in Hfree;
    try discriminate; try (intros r; cbn; discriminate).
  cbn [buildReplacementCondition]. unfold handleBinaryExpr.
  destruct (analyzeContextNilComparison pass _) as [[[c|] [n|]] isEqual].
  1: { intros r [= <-] _. cbn. destruct isEqual; auto. }
  all: cbn [Op]; destruct (_ || _); [|intros r; discriminate];
    apply andb_prop in Hfree as [Hx Hy];
    specialize (IHe1 Hx); specialize (IHe2 Hy);
    unfold handleLogicalExpr; cbn [X Y Op];
    destruct (buildReplacementCondition pass e1) as [l|],
             (buildReplacementCondition pass e2) as [r|];
    try (intros r0; discriminate);
    destruct (token.eqb op token.LAND);
    (apply simplifyAndExpr_spelled || apply simplifyOrExpr_spelled);
    auto; try (intros x0; congruence); try (intros x0; discriminate).
Qed.

(** C1. What the simplifier returns for the guard of
    [if (ctx != nil) { f() }]: a result flagged literal whose text is
    [(true)], neither of the two spellings; the diagnostic built from
    it is the one for a guard that is always false. *)
Theorem paren_literal_text :
  buildReplacementCondition (mkPass [] Samples.typeOf) Samples.parenGuard
  = Some (mkReplacementCondition "(true)" true
            "context nil comparison 'ctx != nil' is always true")
  /\ "(true)" <> trueValue /\ "(true)" <> falseValue
  /\ diagnoseIfStmt (mkPass [] Samples.typeOf) None Samples.ifParen
     = Some (mkDiagnostic 100
               "condition is always false, remove entire if statement"
               [mkSuggestedFix "Remove if statement"
                  [mkTextEdit 100 123 EmptyString]]).
Proof.
  split; [reflexivity|]. split; [discriminate|].
  split; [discriminate|reflexivity].
Qed.

(** C2. What is reported for [if ctx != nil { f() } else { g() }]: the
    message and the span are as specified, and the new text is
    the fixed text [blockText]; the statement with the consequent
    [{ launch() }] gets the same new text. *)
Theorem true_guard_with_else_edit :
  diagnoseIfStmt (mkPass [] Samples.typeOf) None Samples.ifElse
  = Some (mkDiagnostic 100
            "condition is always true, else clause is unreachable"
            [mkSuggestedFix "Replace with then clause"
               [mkTextEdit 100 134 blockText]])
  /\ diagnoseIfStmt (mkPass [] Samples.typeOf) None Samples.ifElse'
     = Some (mkDiagnostic 100
               "condition is always true, else clause is unreachable"
               [mkSuggestedFix "Replace with then clause"
                  [mkTextEdit 100 139 blockText]])
  /\ Body Samples.ifElse <> Body Samples.ifElse'.
Proof.
  split; [reflexivity|]. split; [reflexivity|]. discriminate.
Qed.

(** C3. What the simplifier returns for [ctx != nil && isReady()] and
    for [ctx != nil && s.ready]: the operand that yields no result is
    rendered as the fixed text [expr] in both. *)
Theorem unsimplified_operand_text :
  buildReplacementCondition (mkPass [] Samples.typeOf)
    (EBinary Samples.andCall)
  = Some (mkReplacementCondition "expr" false
            "simplify to 'expr' (left side is always true)")
  /\ buildReplacementCondition (mkPass [] Samples.typeOf)
       (EBinary Samples.andSelector)
     = Some (mkReplacementCondition "expr" false
               "simplify to 'expr' (left side is always true)")
  /\ buildReplacementCondition (mkPass [] Samples.typeOf)
       (Y Samples.andCall) = None
  /\ formatExpr (Y Samples.andCall) = formatExpr (Y Samples.andSelector)
  /\ Y Samples.andCall <> Y Samples.andSelector.
Proof.
  repeat split; try reflexivity. discriminate.
Qed.

(** C5. What the simplifier returns for [true && (ready && ctx != nil)]
    and for its mirror image [(ready && ctx != nil) && true]: only the
    second collapses to the other side. *)
Theorem collapse_left_right :
  buildReplacementCondition (mkPass [] Samples.typeOf)
    (EBinary Samples.trueAndParen)
  = Some (mkReplacementCondition "true && (ready)" false
            "simplify to 'true && (ready)'")
  /\ buildReplacementCondition (mkPass [] Samples.typeOf)
       (EBinary Samples.parenAndTrue)
     = Some (mkReplacementCondition "(ready)" false
               "simplify to '(ready)' (right side is always true)")
  /\ formatExpr (X Samples.trueAndParen) = trueValue.
Proof.
  repeat split; reflexivity.
Qed.

End SimplifierProperties.

(** ** Properties of the driver *)

Section MarkingProperties.

Import ast analysis ctxnil Vocabulary.

Lemma preorderExpr_binary (e : Expr) (n : Node) :
  In n (preorderExpr e) -> exists b, n = NBin b.
Proof.
  revert n. induction e using Expr_nested_ind; intros n Hin; cbn in Hin;
    auto; try contradiction.
  - destruct Hin as [<- | Hin]; [eauto|].
    apply in_app_or in Hin as [Hin | Hin]; auto.
  - apply in_app_or in Hin as [Hin | Hin]; [auto|].
    apply in_flat_map in Hin as (a & Ha & Hin).
    rewrite List.Forall_forall in H. apply (H a); assumption.
Qed.

Lemma markedBinaries_preorder (e : Expr) (b : BinaryExpr) :
  In b (markedBinaries e) -> In (NBin b) (preorderExpr e).
Proof.
  induction e using Expr_nested_ind; intros Hin; cbn in Hin |- *;
    auto; try contradiction.
  destruct Hin as [<- | Hin]; [now left|]. right.
  apply in_or_app. apply in_app_or in Hin as [Hin | Hin]; auto.
Qed.

Lemma isProcessed_insert (m : gmap Z bool) (a : Z) (h : Hdr) :
  isProcessed m h = true -> isProcessed (<[a := true]> m) h = true.
Proof.
  unfold isProcessed. destruct (decide (a = ptr h)) as [-> | Hne].
  - now rewrite lookup_insert_eq.
  - now rewrite lookup_insert_ne.
Qed.

Lemma isProcessed_insert_eq (m : gmap Z bool) (h : Hdr) :
  isProcessed (<[ptr h := true]> m) h = true.
Proof. unfold isProcessed. now rewrite lookup_insert_eq. Qed.

Lemma markProcessedExpr_keeps (e : Expr) (m : gmap Z bool) (h : Hdr) :
  isProcessed m h = true -> isProcessed (markProcessedExpr e m) h = true.
Proof.
  revert m. induction e using Expr_nested_ind; intros m Hm; cbn;
    auto using isProcessed_insert.
Qed.

Lemma markProcessedExpr_marks (e : Expr) (m : gmap Z bool)
    (b : BinaryExpr) :
  In b (markedBinaries e) ->
  isProcessed (markProcessedExpr e m) (binHdr b) = true.
Proof.
  revert m. induction e using Expr_nested_ind; intros m Hin;
    cbn in Hin |- *; auto; try contradiction.
  destruct Hin as [<- | Hin].
  - do 2 apply markProcessedExpr_keeps. apply isProcessed_insert_eq.
  - apply in_app_or in Hin as [Hin | Hin]; [|auto].
    apply markProcessedExpr_keeps. auto.
Qed.

Lemma visit_keeps (pass : Pass) (st : State) (fn : option File * Node)
    (h : Hdr) :
  isProcessed (processedExprs st) h = true ->
  isProcessed (processedExprs (visit pass st fn)) h = true.
Proof.
  intros Hm. destruct fn as [file [s | b]]; cbn.
  - destruct (diagnoseIfStmt pass file s); [|assumption].
    cbn. now apply markProcessedExpr_keeps.
  - destruct (negb _); [|assumption].
    destruct (diagnoseBinaryExpr pass file b); assumption.
Qed.

End MarkingProperties.

Section TraversalProperties.

Import ast analysis ctxnil Vocabulary.

Lemma guardsFollow_expr (e : Expr) : guardsFollow (preorderExpr e).
Proof.
  intros i s n Hi _. apply list_elem_of_lookup_2, list_elem_of_In in Hi.
  apply preorderExpr_binary in Hi as [b Hb]. discriminate.
Qed.

Lemma guardsFollow_nil : guardsFollow [].
Proof. intros i s n Hi. now rewrite lookup_nil in Hi. Qed.

Lemma guardsFollow_app (A B : list Node) :
  guardsFollow A -> guardsFollow B -> guardsFollow (A ++ B).
Proof.
  intros HA HB i s n Hi Hn.
  apply lookup_app_Some in Hi as [Hi | [Hlen Hi]].
  - destruct (HA i s n Hi Hn) as (j & Hij & Hj). exists j.
    split; [assumption|]. apply lookup_app_Some. now left.
  - destruct (HB _ s n Hi Hn) as (j & Hij & Hj).
    exists (length A + j)%nat. split; [lia|].
    apply lookup_app_Some. right. split; [lia|].
    now replace (length A + j - length A)%nat with j by lia.
Qed.

Lemma guardsFollow_flat_map {A} (f : A -> list Node) (l : list A) :
  List.Forall (fun a => guardsFollow (f a)) l ->
  guardsFollow (flat_map f l).
Proof.
  induction 1; cbn; auto using guardsFollow_nil, guardsFollow_app.
Qed.

Lemma guardsFollow_if (s : IfStmt) (T : list Node) :
  guardsFollow T ->
  (forall n, In n (preorderExpr (Cond s)) -> In n T) ->
  guardsFollow (NIf s :: T).
Proof.
  intros HT Hsub [|i] s' n Hi Hn; cbn in Hi.
  - injection Hi as <-. apply Hsub, list_elem_of_In in Hn.
    apply list_elem_of_lookup_1 in Hn as [k Hk].
    exists (S k). split; [lia|assumption].
  - destruct (HT i s' n Hi Hn) as (j & Hij & Hj).
    exists (S j). split; [lia|assumption].
Qed.

Lemma guardsFollow_stmt (s : Stmt) : guardsFollow (preorderStmt s).
Proof.
  induction s using Stmt_nested_ind; cbn [preorderStmt List Init Cond Body Else].
  - now apply guardsFollow_flat_map.
  - apply guardsFollow_if.
    + repeat apply guardsFollow_app.
      * destruct init; [assumption|apply guardsFollow_nil].
      * apply guardsFollow_expr.
      * now apply guardsFollow_flat_map.
      * destruct els; [assumption|apply guardsFollow_nil].
    + intros n Hn. cbn [Cond] in Hn.
      apply in_or_app. right. apply in_or_app. now left.
  - apply guardsFollow_expr.
  - apply guardsFollow_app; apply guardsFollow_flat_map;
      apply List.Forall_forall; intros; apply guardsFollow_expr.
  - apply guardsFollow_flat_map, List.Forall_forall; intros;
      apply guardsFollow_expr.
Qed.

Lemma guardsFollow_file (f : File) : guardsFollow (preorderFile f).
Proof.
  apply guardsFollow_flat_map, List.Forall_forall. intros d _.
  destruct d as [h doc [body|] | h values]; cbn.
  - apply guardsFollow_flat_map, List.Forall_forall.
    intros; apply guardsFollow_stmt.
  - apply guardsFollow_nil.
  - apply guardsFollow_flat_map, List.Forall_forall.
    intros; apply guardsFollow_expr.
Qed.

Lemma lookup_map {A B} (f : A -> B) (l : list A) (i : nat) :
  map f l !! i = option_map f (l !! i).
Proof.
  revert i. induction l as [|a l IH]; intros [|i]; cbn; auto.
Qed.

(** The traversal pairs the [i]-th node with the file found for it. *)
Lemma preorder_lookup (fset : token.FileSet) (pass : Pass) (i : nat)
    (file : option File) (n : Node) :
  preorder fset pass !! i = Some (file, n) <->
  preorderNodes pass !! i = Some n /\ file = fileOf fset pass n.
Proof.
  unfold preorder. rewrite lookup_map.
  destruct (preorderNodes pass !! i) as [n'|]; cbn; split.
  - intros [= <- <-]. auto.
  - intros [[= ->] ->]. reflexivity.
  - discriminate.
  - intros [[=] _].
Qed.

(** The nodes of a guard are visited after their [if] statement. *)
Lemma preorder_guard (fset : token.FileSet) (pass : Pass) (i : nat)
    (file : option File) (s : IfStmt) (n : Node) :
  preorder fset pass !! i = Some (file, NIf s) ->
  In n (preorderExpr (Cond s)) ->
  exists (j : nat) (file' : option File),
    (i < j)%nat /\ preorder fset pass !! j = Some (file', n).
Proof.
  intros Hi Hn. apply preorder_lookup in Hi as [Hi _].
  assert (Hfollow : guardsFollow (preorderNodes pass)).
  { apply guardsFollow_flat_map, List.Forall_forall.
    intros; apply guardsFollow_file. }
  destruct (Hfollow i s n Hi Hn) as (j & Hij & Hj).
  exists j, (fileOf fset pass n). split; [assumption|].
  now apply preorder_lookup.
Qed.

Lemma stateAt_S (fset : token.FileSet) (pass : Pass) (k : nat)
    (fn : option File * Node) :
  preorder fset pass !! k = Some fn ->
  stateAt fset pass (S k) = visit pass (stateAt fset pass k) fn.
Proof.
  intros Hk. unfold stateAt.
  now rewrite (take_S_r _ _ _ Hk), fold_left_app.
Qed.

Lemma stateAt_past (fset : token.FileSet) (pass : Pass) (k : nat) :
  preorder fset pass !! k = None -> stateAt fset pass (S k) = stateAt fset pass k.
Proof.
  intros Hk. apply lookup_ge_None in Hk. unfold stateAt.
  rewrite !take_ge by lia. reflexivity.
Qed.

(** Once the guard of a diagnosed [if] statement has been marked, its
    marked binary expressions stay marked. *)
Lemma marked_after (fset : token.FileSet) (pass : Pass) (i : nat)
    (file : option File) (s : IfStmt) (b : BinaryExpr) :
  preorder fset pass !! i = Some (file, NIf s) ->
  diagnoseIfStmt pass file s <> None ->
  In b (markedBinaries (Cond s)) ->
  forall k : nat, (i < k)%nat ->
    isProcessed (processedExprs (stateAt fset pass k)) (binHdr b) = true.
Proof.
  intros Hi Hdiag Hb k Hk. induction k as [|k IH]; [lia|].
  destruct (decide (k = i)) as [-> | Hne].
  - rewrite (stateAt_S _ _ _ _ Hi). cbn.
    destruct (diagnoseIfStmt pass file s); [|congruence].
    cbn. now apply markProcessedExpr_marks.
  - destruct (preorder fset pass !! k) as [fn|] eqn:E.
    + rewrite (stateAt_S _ _ _ _ E). apply visit_keeps, IH. lia.
    + rewrite (stateAt_past _ _ _ E). apply IH. lia.
Qed.

Lemma run_stateAt (fset : token.FileSet) (pass : Pass) :
  run fset pass
  = reported (stateAt fset pass (length (preorder fset pass))).
Proof. unfold run, stateAt. now rewrite take_ge. Qed.

Lemma visit_processed (pass : Pass) (st : State) (file : option File)
    (b : BinaryExpr) :
  isProcessed (processedExprs st) (binHdr b) = true ->
  visit pass st (file, NBin b) = st.
Proof. intros H. cbn. now rewrite H. Qed.

(** C9, as amended. With distinct nodes at distinct addresses, and
    whatever file the file set makes [run] find for each node, every
    comparison that lies in the guard of a diagnosed [if] statement
    under binary, unary and parenthesized nodes only is marked
    processed, and its visit reports nothing. *)
Theorem marked_guard_not_reported_again (fset : token.FileSet)
    (pass : Pass) :
  distinctNodes pass -> NoDoubleReport markedBinaries fset pass.
Proof.
  intros Hnd i file s b Hi Hdiag Hb _.
  pose proof (marked_after fset pass i file s b Hi Hdiag Hb) as Hmarked.
  destruct (preorder_guard fset pass i file s (NBin b) Hi
              (markedBinaries_preorder _ _ Hb)) as (j0 & f0 & Hij0 & Hj0).
  split; [|split].
  - apply Hmarked. apply lookup_lt_Some in Hi. lia.
  - eauto.
  - intros j file' Hj.
    assert (j = j0) as ->.
    { apply preorder_lookup in Hj as [Hj _], Hj0 as [Hj0 _].
      apply (NoDup_lookup _ j j0 (ptr (binHdr b)) Hnd);
        rewrite lookup_map; [rewrite Hj | rewrite Hj0]; reflexivity. }
    rewrite (stateAt_S _ _ _ _ Hj), visit_processed; auto.
Qed.

Ltac distinct_addresses :=
  unfold distinctNodes; apply (bool_decide_unpack _); vm_compute; exact I.

(** In [if ctx != nil && check(ctx == nil) { }] the comparison
    [ctx != nil] of the guard is visited third and adds no diagnostic. *)
Lemma marked_guard_not_reported_again_witness :
  distinctNodes Samples.passCall
  /\ reported (stateAt Samples.fileSet Samples.passCall 3)
     = reported (stateAt Samples.fileSet Samples.passCall 2).
Proof.
  split; [distinct_addresses|].
  refine (proj2 (proj2 (marked_guard_not_reported_again Samples.fileSet
            Samples.passCall
            ltac:(distinct_addresses) 0%nat (Some Samples.fileCall)
            (Samples.ifCall 44) (Samples.ctxNeNilExpr 72 47)
            eq_refl _ _ eq_refl)) 2%nat (Some Samples.fileCall) eq_refl).
  - vm_compute. discriminate.
  - cbn. right. left. reflexivity.
Defined.

(** The two diagnostics of [if ctx != nil && check(ctx == nil) { }]: one
    for the guard of the statement, one for the comparison inside the
    call. *)
Example run_guard_with_call :
  map Message (run Samples.fileSet Samples.passCall)
  = ["simplify to 'expr' (left side is always true)";
     "context should never be nil, replace 'ctx == nil' with 'false'"]%string.
Proof. vm_compute. reflexivity. Qed.

(** C9, as stated, fails: in [if ctx != nil && check(ctx == nil) { }]
    the statement is diagnosed, and the comparison [ctx == nil] inside
    its guard, an argument of the call, is visited fourth and reported
    as a bare comparison. *)
Lemma guard_call_argument_reported_again :
  distinctNodes Samples.passCall
  /\ ~ NoDoubleReport binariesOf Samples.fileSet Samples.passCall.
Proof.
  split; [distinct_addresses|]. intros H.
  destruct (H 0%nat (Some Samples.fileCall) (Samples.ifCall 44)
              (Samples.ctxEqNilExpr 77 67) eq_refl) as (_ & _ & Hvisit).
  - vm_compute. discriminate.
  - cbn. right. right. left. reflexivity.
  - reflexivity.
  - specialize (Hvisit 3%nat (Some Samples.fileCall) eq_refl).
    vm_compute in Hvisit. discriminate.
Qed.

Local Open Scope string_scope.

Lemma diagnoseBinaryExpr_comparison (pass : Pass) (file : option File)
    (b : BinaryExpr) (d : Diagnostic) :
  diagnoseBinaryExpr pass file b = Some d ->
  (Op b = token.EQL \/ Op b = token.NEQ)
  /\ Message d
     = "context should never be nil, replace '"
       +:+ formatExpr (EBinary b) +:+ "' with '"
       +:+ (if token.eqb (Op b) token.EQL then "false" else "true")
       +:+ "'".
Proof.
  unfold diagnoseBinaryExpr.
  destruct (analyzeContextNilComparison pass b) as [[[c|] [n|]] isEqual]
    eqn:E; try discriminate.
  apply analyze_applicable in E as [Hop ->].
  destruct (shouldIgnore file (NBin b) (str "ctxnil")); [discriminate|].
  intros [= <-]. split; [assumption|]. cbn [Message].
  now destruct (token.eqb (Op b) token.EQL).
Qed.

(** C10. A binary expression whose operator is [&&] or [||] is ruled
    not applicable by the classifier and its visit leaves the state of
    the traversal as it is, so nothing is reported for it; whatever the
    visit of a binary expression reports is the diagnostic of a bare
    [==] or [!=] comparison. *)
Theorem connective_itself_not_reported
    (pass : Pass) (file : option File) (expr : BinaryExpr) :
  Op expr = token.LAND \/ Op expr = token.LOR ->
  analyzeContextNilComparison pass expr = (None, None, false)
  /\ diagnoseBinaryExpr pass file expr = None
  /\ (forall st : State, visit pass st (file, NBin expr) = st)
  /\ (forall (st : State) (file' : option File) (b : BinaryExpr),
        visit pass st (file', NBin b) = st
        \/ exists d : Diagnostic,
            visit pass st (file', NBin b) = Report st d
            /\ (Op b = token.EQL \/ Op b = token.NEQ)
            /\ Message d
               = "context should never be nil, replace '"
                 +:+ formatExpr (EBinary b) +:+ "' with '"
                 +:+ (if token.eqb (Op b) token.EQL
                      then "false" else "true")
                 +:+ "'").
Proof.
  intros Hop.
  assert (Hdiag : diagnoseBinaryExpr pass file expr = None).
  { unfold diagnoseBinaryExpr.
    now rewrite (analyze_connective pass expr Hop). }
  split; [now apply analyze_connective|]. split; [exact Hdiag|]. split.
  - intros st. cbn. rewrite Hdiag. now destruct (negb _).
  - intros st file' b. cbn. destruct (negb _); [|now left].
    destruct (diagnoseBinaryExpr pass file' b) as [d|] eqn:E; [|now left].
    right. exists d. split; [reflexivity|].
    now apply diagnoseBinaryExpr_comparison in E.
Qed.

(** [ready && ctx != nil] used as a value: nothing is reported for the
    connective. *)
Lemma connective_itself_not_reported_witness :
  diagnoseBinaryExpr Samples.passCall (Some Samples.fileCall)
    Samples.readyAnd = None.
Proof.
  apply (connective_itself_not_reported Samples.passCall
           (Some Samples.fileCall) Samples.readyAnd).
  left. reflexivity.
Defined.

End TraversalProperties.

(** ** Further properties of the ignore directives *)

Section DirectiveMore.
Import strings directive DirectiveVocabulary.

Lemma Split_nonempty (s : gostring) (sep : rune) : Split s sep <> [].
Proof.
  induction s as [|c s IH]; cbn; [discriminate|].
  destruct (c =? sep)%N; [discriminate|].
  destruct (Split s sep); [contradiction|discriminate].
Qed.

Lemma parseComment_directive (c : Comment) :
  parseComment c = None <-> isDirective c = false.
Proof.
  unfold parseComment, isDirective, CutPrefix.
  destruct (bool_decide (TrimSpace (Text c) = str "//godernize:ignore"));
    cbn [orb]; [split; discriminate|].
  destruct (HasPrefix _ _); [|tauto].
  destruct (bool_decide _); [split; discriminate|].
  pose proof (Split_nonempty
    (TrimSpace (drop (length (str "//godernize:ignore=")) (TrimSpace (Text c))))
    comma) as Hne.
  destruct (Split _ comma) as [|w ws]; [contradiction|].
  cbn. split; discriminate.
Qed.

Lemma parseList_skip (pre rest : list Comment) :
  Forall (fun c => isDirective c = false) pre ->
  parseList (pre ++ rest) = parseList rest.
Proof.
  induction 1 as [|c pre Hc _ IH]; cbn; [reflexivity|].
  apply parseComment_directive in Hc. now rewrite Hc.
Qed.

(** X1. [ParseIgnore] returns [nil] exactly when the comment group is
    missing or none of its comments is a directive: trimmed, none is
    [//godernize:ignore] and none starts with [//godernize:ignore=]. *)
Theorem ParseIgnore_nil_iff (doc : option CommentGroup) :
  ParseIgnore doc = None
  <-> forall g, doc = Some g ->
        forall c, In c (cgList g) -> isDirective c = false.
Proof.
  destruct doc as [g|]; cbn; [|split; [discriminate|reflexivity]].
  split.
  - intros H g' [= <-]. induction (cgList g) as [|c l IH]; cbn in *;
      [contradiction|].
    destruct (parseComment c) eqn:E; [discriminate|].
    intros c' [<- | Hin]; [now apply parseComment_directive|auto].
  - intros H. specialize (H g eq_refl).
    induction (cgList g) as [|c l IH]; cbn; [reflexivity|].
    rewrite (proj2 (parseComment_directive c) (H c (or_introl eq_refl))).
    apply IH. intros c' Hc'. apply H. now right.
Qed.

(** X2. The first directive of a comment group decides: the comments
    before it that are no directives are skipped, the comments after it
    are not read, and the result is not [nil]. *)
Theorem ParseIgnore_first_directive
    (p e : Z) (pre rest : list Comment) (c : Comment) :
  (forall c', In c' pre -> isDirective c' = false) ->
  isDirective c = true ->
  ParseIgnore (Some (mkCommentGroup p e (pre ++ c :: rest)))
  = parseComment c
  /\ parseComment c <> None.
Proof.
  intros Hpre Hc. cbn.
  rewrite parseList_skip by (now apply Forall_forall; intros x Hx; apply Hpre, list_elem_of_In).
  assert (parseComment c <> None) as Hne.
  { intros E. apply parseComment_directive in E. congruence. }
  split; [|assumption]. cbn. destruct (parseComment c); [reflexivity|congruence].
Qed.

(** *** Trimming *)

Lemma TrimLeft_length (s : gostring) : (length (TrimLeft s) <= length s)%nat.
Proof.
  induction s as [|c s IH]; cbn; [lia|]. destruct (isSpace c); cbn; lia.
Qed.

Lemma TrimRight_length (s : gostring) : (length (TrimRight s) <= length s)%nat.
Proof.
  unfold TrimRight. rewrite length_rev.
  etransitivity; [apply TrimLeft_length|]. now rewrite length_rev.
Qed.

Lemma TrimLeft_fixed (s : gostring) :
  s <> [] -> TrimLeft s = s -> startsSolid s = true.
Proof.
  destruct s as [|c s]; [congruence|]. intros _. cbn.
  destruct (isSpace c); [|reflexivity].
  intros E. pose proof (TrimLeft_length s) as H. rewrite E in H. cbn in H. lia.
Qed.

Lemma TrimSpace_fixed (s : gostring) :
  s <> [] -> TrimSpace s = s ->
  startsSolid s = true /\ startsSolid (rev s) = true.
Proof.
  intros Hne E. unfold TrimSpace in E.
  assert (Hl : TrimLeft s = s).
  { pose proof (TrimRight_length (TrimLeft s)) as H1.
    pose proof (TrimLeft_length s) as H2. rewrite E in H1.
    destruct s as [|c s]; [congruence|]. cbn in *.
    destruct (isSpace c); [|reflexivity].
    pose proof (TrimLeft_length s). lia. }
  split; [now apply TrimLeft_fixed|].
  rewrite Hl in E. unfold TrimRight in E.
  apply TrimLeft_fixed.
  - intros Hr. apply Hne. rewrite <- (rev_involutive s), Hr. reflexivity.
  - rewrite <- E at 2. now rewrite rev_involutive.
Qed.

Lemma TrimSpace_solid (s : gostring) :
  startsSolid s = true -> startsSolid (rev s) = true -> TrimSpace s = s.
Proof.
  intros Hs He.
  pose proof (TrimSpace_pad [] [] s eq_refl eq_refl Hs He) as H.
  now rewrite app_nil_r in H.
Qed.

(** *** Splitting a joined list *)

Lemma Split_app (n s : gostring) (sep : rune) :
  ~ In sep n ->
  Split (n ++ sep :: s) sep = n :: Split s sep.
Proof.
  induction n as [|c n IH]; intros Hn; cbn.
  - now rewrite N.eqb_refl.
  - destruct (N.eqb_spec c sep) as [-> | Hne]; [exfalso; apply Hn; now left|].
    rewrite IH; [reflexivity|]. intros H. apply Hn. now right.
Qed.

Lemma Split_whole (n : gostring) (sep : rune) :
  ~ In sep n -> Split n sep = [n].
Proof.
  induction n as [|c n IH]; intros Hn; cbn; [reflexivity|].
  destruct (N.eqb_spec c sep) as [-> | Hne]; [exfalso; apply Hn; now left|].
  rewrite IH; [reflexivity|]. intros H. apply Hn. now right.
Qed.

Lemma Split_Join (names : list gostring) (sep : rune) :
  names <> [] ->
  (forall n, In n names -> ~ In sep n) ->
  Split (Join names sep) sep = names.
Proof.
  induction names as [|n [|m rest] IH]; intros Hne Hsep; [congruence| |].
  - cbn. apply Split_whole, Hsep. now left.
  - change (Join (n :: m :: rest) sep) with (n ++ sep :: Join (m :: rest) sep).
    rewrite Split_app by (apply Hsep; now left).
    rewrite IH; [reflexivity|discriminate|].
    intros k Hk. apply Hsep. now right.
Qed.

Lemma startsSolid_app (s t : gostring) :
  startsSolid s = true -> startsSolid (s ++ t) = true.
Proof. destruct s; [discriminate|auto]. Qed.

Lemma Join_starts_solid (names : list gostring) (sep : rune) :
  isSpace sep = false ->
  Join names sep <> [] ->
  (forall n, In n names -> n <> [] -> startsSolid n = true) ->
  startsSolid (Join names sep) = true.
Proof.
  intros Hsep. destruct names as [|n [|m rest]]; intros Hne Hn.
  - contradiction.
  - apply Hn; [now left|assumption].
  - change (Join (n :: m :: rest) sep) with (n ++ sep :: Join (m :: rest) sep).
    destruct n as [|c n]; [cbn; now rewrite Hsep|].
    apply startsSolid_app, Hn; [now left|discriminate].
Qed.

Lemma Join_ends_solid (names : list gostring) (sep : rune) :
  isSpace sep = false ->
  Join names sep <> [] ->
  (forall n, In n names -> n <> [] -> startsSolid (rev n) = true) ->
  startsSolid (rev (Join names sep)) = true.
Proof.
  intros Hsep. induction names as [|n [|m rest] IH]; intros Hne Hn.
  - contradiction.
  - apply Hn; [now left|assumption].
  - change (Join (n :: m :: rest) sep) with (n ++ sep :: Join (m :: rest) sep).
    rewrite rev_app_distr. cbn [rev]. rewrite <- app_assoc.
    destruct (Join (m :: rest) sep) as [|c J] eqn:E.
    + cbn. now rewrite Hsep.
    + apply startsSolid_app, IH; [discriminate|].
      intros k Hk. apply Hn. now right.
Qed.

Lemma HasPrefix_app (p s : gostring) : HasPrefix (p ++ s) p = true.
Proof.
  induction p as [|c p IH]; cbn; [now destruct s|]. now rewrite N.eqb_refl.
Qed.

Lemma freshName_not_listed (names : list gostring) :
  ~ In (freshName names) names.
Proof.
  assert (H : forall n l, In n l ->
               (length n <= list_sum (map (@length rune) l))%nat).
  { intros n l. unfold list_sum.
    induction l as [|m l IH]; cbn; [contradiction|].
    intros [-> | Hin]; [lia|]. specialize (IH Hin). lia. }
  intros Hin. apply H in Hin. unfold freshName in Hin.
  rewrite repeat_length in Hin. lia.
Qed.

(** X3. Names joined by commas after [//godernize:ignore=] are parsed
    back as they are (names without a comma and without white space at
    their ends, the joined value not empty), and the directive then
    suppresses exactly the listed names. *)
Theorem ParseIgnore_Join
    (names : list gostring) (p e : Z) (rest : list Comment) :
  Join names comma <> [] ->
  (forall n, In n names -> isName n) ->
  ParseIgnore
    (Some (mkCommentGroup p e
             (mkComment (str "//godernize:ignore=" ++ Join names comma)
              :: rest)))
  = Some (mkIgnore names)
  /\ (forall name : gostring,
        ShouldIgnore (mkIgnore names) name = true <-> In name names).
Proof.
  intros Hval Hnames.
  assert (Hne : names <> []) by (intros ->; now apply Hval).
  assert (Hs : startsSolid (Join names comma) = true).
  { apply Join_starts_solid; [reflexivity|assumption|].
    intros n Hn Hnn. now apply (TrimSpace_fixed n Hnn), Hnames. }
  assert (He : startsSolid (rev (Join names comma)) = true).
  { apply Join_ends_solid; [reflexivity|assumption|].
    intros n Hn Hnn. now apply (TrimSpace_fixed n Hnn), Hnames. }
  split.
  - cbn [ParseIgnore cgList parseList]. unfold parseComment. cbn [Text].
    rewrite (TrimSpace_solid (str "//godernize:ignore=" ++ Join names comma))
      by (try reflexivity; rewrite rev_app_distr; now apply startsSolid_app).
    rewrite bool_decide_eq_false_2.
    2:{ intros E. apply (f_equal (@length rune)) in E.
        rewrite length_app in E. cbn in E. lia. }
    unfold CutPrefix. rewrite HasPrefix_app, drop_app_length.
    rewrite (TrimSpace_solid _ Hs He).
    rewrite bool_decide_eq_false_2 by assumption.
    rewrite Split_Join by (try assumption; intros n Hn; now apply Hnames).
    destruct names as [|n ns] eqn:En; [congruence|]. rewrite <- En in *.
    replace (map TrimSpace names) with names.
    + rewrite En. reflexivity.
    + rewrite <- (map_id names) at 1. apply map_ext_in.
      intros k Hk. symmetry. now apply Hnames.
  - intros name. unfold ShouldIgnore. cbn [Names].
    destruct names as [|n ns]; [congruence|].
    cbn [length Nat.eqb]. apply hasName_In.
Qed.

(** X4. A directive suppresses every name exactly when it has no
    specific rules: with a name list, [ShouldIgnore] is [false] for some
    name. *)
Theorem ShouldIgnore_every_name (i : Ignore) :
  (forall name : gostring, ShouldIgnore i name = true)
  <-> HasSpecificRules i = false.
Proof.
  unfold ShouldIgnore, HasSpecificRules. split.
  - intros H. specialize (H (freshName (Names i))).
    destruct (Names i) as [|n ns] eqn:E; [reflexivity|].
    cbn [length Nat.eqb] in H. apply hasName_In in H. rewrite E in H.
    now apply freshName_not_listed in H.
  - intros H name. destruct (Names i); [reflexivity|discriminate].
Qed.

End DirectiveMore.

(** ** Further properties of the classifier and the simplifier *)

Section ClassifierMore.

Import ast analysis ctxnil Vocabulary CtxnilVocabulary.
Local Open Scope string_scope.

Lemma analyze_verdict (pass : Pass) (b : BinaryExpr) :
  (isCtxNilComparison pass b = false
   /\ analyzeContextNilComparison pass b = (None, None, false))
  \/ (isCtxNilComparison pass b = true
      /\ exists c n : Expr,
          analyzeContextNilComparison pass b
          = (Some c, Some n, token.eqb (Op b) token.EQL)
          /\ ((c = X b /\ n = Y b) \/ (c = Y b /\ n = X b))
          /\ isContextType pass c = true
          /\ isNilIdent n = true
          /\ (Op b = token.EQL \/ Op b = token.NEQ)).
Proof.
  unfold isCtxNilComparison, analyzeContextNilComparison.
  destruct (Op b) eqn:EOp; cbn; auto;
    destruct (isContextType pass (X b)) eqn:EX,
             (isNilIdent (Y b)) eqn:EY; cbn;
    try (right; split; [reflexivity|]; exists (X b), (Y b); now auto 10);
    destruct (isContextType pass (Y b)) eqn:EY',
             (isNilIdent (X b)) eqn:EX'; cbn; auto;
    right; (split; [reflexivity|]); exists (Y b), (X b); auto 10.
Qed.

Lemma isContextType_untyped (pass : Pass) (e : Expr) :
  TypeOf pass e = None -> isContextType pass e = false.
Proof. unfold isContextType. now intros ->. Qed.

(** X5. The classifier returns either nothing at all or both sides:
    then the two sides are the two operands, the first has the type
    [context.Context], the second is the [nil] identifier, the operator
    is [==] or [!=] and the flag tells which. *)
Theorem analyzeContextNilComparison_all_or_nothing
    (pass : Pass) (b : BinaryExpr) :
  (isCtxNilComparison pass b = false
   /\ analyzeContextNilComparison pass b = (None, None, false))
  \/ (isCtxNilComparison pass b = true
      /\ exists c n : Expr,
          analyzeContextNilComparison pass b
          = (Some c, Some n, token.eqb (Op b) token.EQL)
          /\ ((c = X b /\ n = Y b) \/ (c = Y b /\ n = X b))
          /\ isContextType pass c = true
          /\ isNilIdent n = true
          /\ (Op b = token.EQL \/ Op b = token.NEQ)).
Proof. exact (analyze_verdict pass b). Qed.

Lemma simplifyAndExpr_some (lt rt : string)
    (l r : option ReplacementCondition) :
  notNil l || notNil r = true -> simplifyAndExpr lt rt l r <> None.
Proof.
  intros H. unfold simplifyAndExpr, checkAndShortCircuit,
    checkAndSimplification, buildAndReplacement. rewrite H.
  repeat match goal with
         | |- context [if ?b then _ else _] => destruct b
         end; discriminate.
Qed.

Lemma simplifyOrExpr_some (lt rt : string)
    (l r : option ReplacementCondition) :
  notNil l || notNil r = true -> simplifyOrExpr lt rt l r <> None.
Proof.
  intros H. unfold simplifyOrExpr, checkOrShortCircuit,
    checkOrSimplification, buildOrReplacement. rewrite H.
  repeat match goal with
         | |- context [if ?b then _ else _] => destruct b
         end; discriminate.
Qed.

Lemma handleLogicalExpr_nil (build : Expr -> option ReplacementCondition)
    (b : BinaryExpr) :
  handleLogicalExpr build b = None
  <-> build (X b) = None /\ build (Y b) = None.
Proof.
  unfold handleLogicalExpr.
  destruct (build (X b)) as [l|], (build (Y b)) as [r|];
    try (split; [|intros []; discriminate];
         destruct (token.eqb (Op b) token.LAND);
         intros H; exfalso; revert H;
         (apply simplifyAndExpr_some || apply simplifyOrExpr_some);
         reflexivity).
  tauto.
Qed.

Lemma build_binary (pass : Pass) (b : BinaryExpr) :
  buildReplacementCondition pass (EBinary b)
  = handleBinaryExpr pass (buildReplacementCondition pass) b.
Proof. reflexivity. Qed.

Lemma build_nil_iff (pass : Pass) (e : Expr) :
  buildReplacementCondition pass e = None
  <-> reachesComparison pass e = false.
Proof.
  induction e using Expr_nested_ind; try (cbn; tauto).
  - rewrite build_binary. cbn [reachesComparison X Y Op].
    unfold handleBinaryExpr.
    destruct (analyze_verdict pass (mkBinaryExpr h e1 op e2))
      as [[-> ->] | [-> (c & n & -> & _)]]; cbn [orb].
    + cbn [Op]. destruct (_ || _); cbn [andb]; [|tauto].
      rewrite handleLogicalExpr_nil. cbn [X Y].
      rewrite IHe1, IHe2, orb_false_iff. tauto.
    + split; discriminate.
  - cbn. rewrite <- IHe.
    destruct (buildReplacementCondition pass e); split; congruence.
Qed.

(** X6. The simplifier yields no result exactly when no comparison the
    classifier applies to is reached from the expression through [&&],
    [||] and parentheses; operands under any other node do not count. *)
Theorem buildReplacementCondition_nil_iff (pass : Pass) (e : Expr) :
  buildReplacementCondition pass e = None
  <-> reachesComparison pass e = false.
Proof. exact (build_nil_iff pass e). Qed.

(** X7. Without parenthesized expressions among the nodes the simplifier
    descends into, every result flagged literal has the text [true] or
    [false]. *)
Theorem literal_results_spelled_without_parens
    (pass : Pass) (e : Expr) (r : ReplacementCondition) :
  parenFree e = true ->
  buildReplacementCondition pass e = Some r ->
  IsLiteral r = true ->
  NewCondition r = "true" \/ NewCondition r = "false".
Proof.
  intros Hfree Hr. exact (literal_text_without_parens pass e Hfree r Hr).
Qed.

(** X8. A comparison of a context with [nil] joined with an operand
    that yields no result: [ctx == nil] decides [&&] (always false) and
    [ctx != nil] decides [||] (always true); otherwise the connective
    collapses to the text of the other operand, on either side. *)
Theorem comparison_with_plain_operand
    (pass : Pass) (h : Hdr) (cmp : BinaryExpr) (y : Expr) :
  isCtxNilComparison pass cmp = true ->
  buildReplacementCondition pass y = None ->
  let eq := token.eqb (Op cmp) token.EQL in
  let t := formatExpr y in
  let plain := mkReplacementCondition t (isLiteralExpr t None) in
  buildReplacementCondition pass
    (EBinary (mkBinaryExpr h (EBinary cmp) token.LAND y))
  = Some (if eq
          then mkReplacementCondition "false" true
                 "condition is always false (left side is false)"
          else plain ("simplify to '" +:+ t +:+ "' (left side is always true)"))
  /\ buildReplacementCondition pass
       (EBinary (mkBinaryExpr h y token.LAND (EBinary cmp)))
     = Some (if eq
             then mkReplacementCondition "false" true
                    "condition is always false (right side is false)"
             else plain ("simplify to '" +:+ t
                         +:+ "' (right side is always true)"))
  /\ buildReplacementCondition pass
       (EBinary (mkBinaryExpr h (EBinary cmp) token.LOR y))
     = Some (if eq
             then plain ("simplify to '" +:+ t
                         +:+ "' (left side is always false)")
             else mkReplacementCondition "true" true
                    "condition is always true (left side is true)")
  /\ buildReplacementCondition pass
       (EBinary (mkBinaryExpr h y token.LOR (EBinary cmp)))
     = Some (if eq
             then plain ("simplify to '" +:+ t
                         +:+ "' (right side is always false)")
             else mkReplacementCondition "true" true
                    "condition is always true (right side is true)").
Proof.
  intros Hcmp Hy eq t plain.
  assert (Hc : exists m,
             buildReplacementCondition pass (EBinary cmp)
             = Some (mkReplacementCondition
                       (if eq then "false" else "true") true m)).
  { rewrite build_binary. unfold handleBinaryExpr.
    destruct (analyze_verdict pass cmp)
      as [[E _] | [_ (c & n & -> & _)]]; [congruence|].
    fold eq. destruct eq; eauto. }
  destruct Hc as [m Hc].
  repeat split;
    rewrite build_connective by (cbn [Op]; auto);
    unfold handleLogicalExpr; cbn [X Y Op]; rewrite Hc, Hy;
    cbn [token.eqb NewCondition];
    unfold simplifyAndExpr, checkAndShortCircuit, checkAndSimplification,
      simplifyOrExpr, checkOrShortCircuit, checkOrSimplification;
    destruct eq; cbn; reflexivity.
Qed.

End ClassifierMore.

(** ** Further properties of the driver *)

Section DriverMore.
Import ast analysis ctxnil Vocabulary CtxnilVocabulary DriverVocabulary.

Lemma visit_reports (pass : Pass) (st : State) (file : option File)
    (n : Node) :
  reported (visit pass st (file, n)) = reported st
  \/ exists d, reported (visit pass st (file, n)) = reported st ++ [d]
               /\ produces pass file n d.
Proof.
  destruct n as [s | b]; cbn.
  - destruct (diagnoseIfStmt pass file s) as [d|] eqn:E; [|now left].
    right. exists d. now split.
  - destruct (negb _); [|now left].
    destruct (diagnoseBinaryExpr pass file b) as [d|] eqn:E; [|now left].
    right. exists d. now split.
Qed.

Lemma fold_reports (pass : Pass) (l : list (option File * Node))
    (st : State) (d : Diagnostic) :
  In d (reported (fold_left (visit pass) l st)) ->
  In d (reported st)
  \/ exists file n, In (file, n) l /\ produces pass file n d.
Proof.
  revert st. induction l as [|[file n] l IH]; intros st; cbn [fold_left];
    [now left|].
  intros Hd. apply IH in Hd as [Hd | (file' & n' & Hin & Hp)].
  - destruct (visit_reports pass st file n) as [E | (d' & E & Hp)];
      rewrite E in Hd; [now left|].
    apply in_app_or in Hd as [Hd | [<- | []]]; [now left|].
    right. exists file, n. split; [now left|assumption].
  - right. exists file', n'. split; [now right|assumption].
Qed.

Lemma fold_keeps_reports (pass : Pass) (l : list (option File * Node))
    (st : State) (d : Diagnostic) :
  In d (reported st) -> In d (reported (fold_left (visit pass) l st)).
Proof.
  revert st. induction l as [|[file n] l IH]; intros st Hd; cbn [fold_left];
    [assumption|].
  apply IH. destruct (visit_reports pass st file n) as [E | (d' & E & _)];
    rewrite E; [assumption|]. apply in_or_app. now left.
Qed.

Lemma fold_keeps_marks (pass : Pass) (l : list (option File * Node))
    (st : State) (h : Hdr) :
  isProcessed (processedExprs st) h = true ->
  isProcessed (processedExprs (fold_left (visit pass) l st)) h = true.
Proof.
  revert st. induction l as [|x l IH]; intros st Hm; cbn [fold_left];
    [assumption|]. now apply IH, visit_keeps.
Qed.

Lemma fold_reports_if (pass : Pass) (l : list (option File * Node))
    (st : State) (file : option File) (s : IfStmt) (d : Diagnostic) :
  In (file, NIf s) l ->
  diagnoseIfStmt pass file s = Some d ->
  In d (reported (fold_left (visit pass) l st)).
Proof.
  revert st. induction l as [|x l IH]; intros st Hin Hd; [contradiction|].
  cbn [fold_left]. destruct Hin as [-> | Hin]; [|now apply IH].
  apply fold_keeps_reports. cbn. rewrite Hd. cbn.
  apply in_or_app. right. now left.
Qed.

Lemma fold_reports_binary (pass : Pass) (l : list (option File * Node))
    (st : State) (file : option File) (b : BinaryExpr) (d : Diagnostic) :
  In (file, NBin b) l ->
  diagnoseBinaryExpr pass file b = Some d ->
  isProcessed (processedExprs (fold_left (visit pass) l st)) (binHdr b)
  = false ->
  In d (reported (fold_left (visit pass) l st)).
Proof.
  revert st. induction l as [|x l IH]; intros st Hin Hd Hm; [contradiction|].
  cbn [fold_left] in *. destruct Hin as [-> | Hin]; [|now apply IH].
  apply fold_keeps_reports. cbn.
  destruct (isProcessed (processedExprs st) (binHdr b)) eqn:E.
  - apply (visit_keeps pass st (file, NBin b)) in E.
    apply (fold_keeps_marks pass l) in E. congruence.
  - cbn. rewrite Hd. cbn. apply in_or_app. right. now left.
Qed.

Lemma produces_not_suppressed (pass : Pass) (file : option File)
    (n : Node) (d : Diagnostic) :
  produces pass file n d -> shouldIgnore file n (str "ctxnil") = false.
Proof.
  destruct n as [s | b]; unfold produces.
  - unfold diagnoseIfStmt.
    destruct (shouldIgnore file (NIf s) (str "ctxnil"));
      [discriminate|reflexivity].
  - unfold diagnoseBinaryExpr.
    destruct (analyzeContextNilComparison pass b) as [[[c|] [k|]] eq];
      try discriminate.
    destruct (shouldIgnore file (NBin b) (str "ctxnil"));
      [discriminate|reflexivity].
Qed.

Lemma run_sound (fset : token.FileSet) (pass : Pass) (d : Diagnostic) :
  In d (run fset pass) ->
  exists file n,
    In (file, n) (preorder fset pass)
    /\ produces pass file n d
    /\ shouldIgnore file n (str "ctxnil") = false.
Proof.
  intros Hd. apply fold_reports in Hd as [[] | (file & n & Hin & Hp)].
  exists file, n. eauto using produces_not_suppressed.
Qed.

(** X12. Every diagnostic of [run] is the one that [diagnoseIfStmt] or
    [diagnoseBinaryExpr] returns for a node of the traversal and the
    file that the file map has under the file name of the node's
    position ([nil] when it has none), and that node is not suppressed
    with that file. *)
Theorem run_reports_only_diagnosed_nodes (fset : token.FileSet)
    (pass : Pass) (d : Diagnostic) :
  In d (run fset pass) ->
  exists file n,
    In (file, n) (preorder fset pass)
    /\ produces pass file n d
    /\ shouldIgnore file n (str "ctxnil") = false.
Proof. exact (run_sound fset pass d). Qed.

(** X13. The diagnostic of an [if] statement of the traversal, with the
    file found for it in the file map, is always reported; the
    diagnostic of a binary expression is reported unless the expression
    ends up marked processed. *)
Theorem run_reports_every_diagnosed_node (fset : token.FileSet)
    (pass : Pass) :
  (forall file s d,
      In (file, NIf s) (preorder fset pass) ->
      diagnoseIfStmt pass file s = Some d ->
      In d (run fset pass))
  /\ (forall file b d,
         In (file, NBin b) (preorder fset pass) ->
         diagnoseBinaryExpr pass file b = Some d ->
         isProcessed
           (processedExprs
              (stateAt fset pass (length (preorder fset pass))))
           (binHdr b) = false ->
         In d (run fset pass)).
Proof.
  split.
  - intros file s d Hin Hd. exact (fold_reports_if pass _ _ file s d Hin Hd).
  - intros file b d Hin Hd Hm.
    apply (fold_reports_binary pass _ _ file b d Hin Hd).
    unfold stateAt in Hm. now rewrite take_ge in Hm.
Qed.

(** X14. When every node of the traversal is suppressed with the file
    found for it in the file map, [run] reports nothing. *)
Theorem run_silent_when_suppressed (fset : token.FileSet) (pass : Pass) :
  (forall file n, In (file, n) (preorder fset pass) ->
                  shouldIgnore file n (str "ctxnil") = true) ->
  run fset pass = [].
Proof.
  intros H. destruct (run fset pass) as [|d l] eqn:E; [reflexivity|].
  destruct (run_sound fset pass d) as (file & n & Hin & _ & Hs).
  - rewrite E. now left.
  - rewrite (H file n Hin) in Hs. discriminate.
Qed.

Lemma diagnoseIfStmt_span (pass : Pass) (file : option File) (s : IfStmt)
    (d : Diagnostic) :
  diagnoseIfStmt pass file s = Some d ->
  editsSpan d (hPos (ifHdr s)) (hEnd (ifHdr s))
  \/ editsSpan d (hPos (exprHdr (Cond s))) (hEnd (exprHdr (Cond s))).
Proof.
  unfold diagnoseIfStmt. destruct (shouldIgnore _ _ _); [discriminate|].
  destruct (buildReplacementCondition pass (Cond s)) as [r|];
    [|discriminate].
  intros [= <-]. unfold createConditionFix, createTrueConditionFix,
    createFalseConditionFix, editsSpan.
  destruct (IsLiteral r); [left|right; cbn; eauto].
  destruct (String.eqb _ _), (Else s); cbn; eauto.
Qed.

Lemma diagnoseBinaryExpr_span (pass : Pass) (file : option File)
    (b : BinaryExpr) (d : Diagnostic) :
  diagnoseBinaryExpr pass file b = Some d ->
  editsSpan d (hPos (binHdr b)) (hEnd (binHdr b)).
Proof.
  unfold diagnoseBinaryExpr.
  destruct (analyzeContextNilComparison pass b) as [[[c|] [k|]] eq];
    try discriminate.
  destruct (shouldIgnore _ _ _); [discriminate|].
  intros [= <-]. unfold editsSpan. cbn. eauto.
Qed.

(** X15. Every diagnostic of [run] carries one suggested fix with one
    text edit; the edit replaces the extent of the diagnosed node, or
    for an [if] statement the extent of its guard, and the diagnostic is
    reported at the start of the edit. *)
Theorem run_edits_diagnosed_node (fset : token.FileSet) (pass : Pass)
    (d : Diagnostic) :
  In d (run fset pass) ->
  exists file n,
    In (file, n) (preorder fset pass)
    /\ (editsSpan d (hPos (nodeHdr n)) (hEnd (nodeHdr n))
        \/ exists s, n = NIf s
                     /\ editsSpan d (hPos (exprHdr (Cond s)))
                          (hEnd (exprHdr (Cond s)))).
Proof.
  intros Hd.
  destruct (run_sound fset pass d Hd) as (file & n & Hin & Hp & _).
  exists file, n. split; [assumption|].
  destruct n as [s | b]; unfold produces in Hp.
  - destruct (diagnoseIfStmt_span pass file s d Hp) as [H | H]; [now left|].
    right. now exists s.
  - left. exact (diagnoseBinaryExpr_span pass file b d Hp).
Qed.

Lemma isProcessed_insert_iff (m : gmap Z bool) (a : Z) (h : Hdr) :
  isProcessed (<[a := true]> m) h = true
  <-> isProcessed m h = true \/ a = ptr h.
Proof.
  unfold isProcessed. destruct (decide (a = ptr h)) as [-> | Hne].
  - rewrite lookup_insert_eq. cbn. tauto.
  - rewrite lookup_insert_ne by assumption. tauto.
Qed.

Lemma markProcessedExpr_iff (e : Expr) (m : gmap Z bool) (h : Hdr) :
  isProcessed (markProcessedExpr e m) h = true
  <-> isProcessed m h = true \/ In (ptr h) (markedAddresses e).
Proof.
  revert m. induction e using Expr_nested_ind; intros m;
    cbn [markProcessedExpr markedAddresses X Y exprHdr binHdr];
    rewrite ?IHe, ?IHe2, ?IHe1, isProcessed_insert_iff;
    cbn [In]; rewrite ?in_app_iff; intuition congruence.
Qed.

(** X11. [markProcessedExpr] keeps every mark and adds exactly the
    addresses of the expression and of the nodes under it through
    binary, unary and parenthesized nodes. *)
Theorem markProcessedExpr_marks_exactly
    (e : Expr) (m : gmap Z bool) (h : Hdr) :
  isProcessed (markProcessedExpr e m) h = true
  <-> isProcessed m h = true \/ In (ptr h) (markedAddresses e).
Proof. exact (markProcessedExpr_iff e m h). Qed.

(** X9. An [if] statement without [else] whose guard is a comparison
    [ctx == nil] (either order) and that is not suppressed gets the
    diagnostic that removes the whole statement. *)
Theorem always_false_guard_removed
    (pass : Pass) (file : option File) (s : IfStmt) (b : BinaryExpr) :
  Cond s = EBinary b ->
  isCtxNilComparison pass b = true ->
  Op b = token.EQL ->
  Else s = None ->
  shouldIgnore file (NIf s) (str "ctxnil") = false ->
  diagnoseIfStmt pass file s
  = Some (mkDiagnostic (hPos (ifHdr s))
            "condition is always false, remove entire if statement"
            [mkSuggestedFix "Remove if statement"
               [mkTextEdit (hPos (ifHdr s)) (hEnd (ifHdr s)) EmptyString]]).
Proof.
  intros Hc Hb Hop He Hs. unfold diagnoseIfStmt. rewrite Hs, Hc, build_binary.
  unfold handleBinaryExpr.
  destruct (analyze_verdict pass b) as [[E _] | [_ (c & n & -> & _)]];
    [congruence|].
  rewrite Hop. cbn. unfold createFalseConditionFix. now rewrite He.
Qed.

(** X10. A node is suppressed exactly when its file is known and either
    a function declaration that contains the node has a doc comment with
    a matching directive, or a comment suppresses it by proximity; other
    declarations never suppress. *)
Theorem shouldIgnore_function_or_comment
    (file : option File) (node : Node) (analyzerName : gostring) :
  shouldIgnore file node analyzerName = true
  <-> exists f,
      file = Some f
      /\ ((exists h doc body,
             In (FuncDecl h doc body) (Decls f)
             /\ hPos h <= hPos (nodeHdr node)
             /\ hEnd (nodeHdr node) <= hEnd h
             /\ ignores doc analyzerName = true)
          \/ shouldIgnoreFromComment (Some f) node analyzerName = true).
Proof.
  destruct file as [f|]; cbn [shouldIgnore];
    [|split; [discriminate|intros (f & E & _); discriminate]].
  rewrite orb_true_iff. unfold shouldIgnoreInFunction at 1.
  rewrite existsb_exists. split.
  - intros [(decl & Hin & H) | H]; exists f; (split; [reflexivity|]);
      [left|now right].
    destruct decl as [h doc body | h values]; [|discriminate].
    apply andb_prop in H as [H Hig]. apply andb_prop in H as [Hp He].
    apply Z.leb_le in Hp, He. exists h, doc, body. auto.
  - intros (f' & [= <-] & [(h & doc & body & Hin & Hp & He & Hig) | H]);
      [left|now right].
    exists (FuncDecl h doc body). split; [assumption|].
    apply Z.leb_le in Hp, He. now rewrite Hp, He, Hig.
Qed.

End DriverMore.

Section GuardMore.

Import ast analysis ctxnil Vocabulary CtxnilVocabulary.
Local Open Scope string_scope.

(** X22. An [if] statement whose guard is [ctx != nil && X], where [X]
    yields no result and is not rendered as [true] or [false], and that
    is not suppressed, keeps its structure: the diagnostic is reported
    at the guard, says that the guard simplifies to the text of [X], and
    its edit replaces the guard alone by that text. *)
Theorem guard_collapses_to_operand
    (pass : Pass) (file : option File) (s : IfStmt) (h : Hdr)
    (cmp : BinaryExpr) (y : Expr) :
  Cond s = EBinary (mkBinaryExpr h (EBinary cmp) token.LAND y) ->
  isCtxNilComparison pass cmp = true ->
  Op cmp = token.NEQ ->
  buildReplacementCondition pass y = None ->
  formatExpr y <> "true" ->
  formatExpr y <> "false" ->
  shouldIgnore file (NIf s) (str "ctxnil") = false ->
  diagnoseIfStmt pass file s
  = Some (mkDiagnostic (hPos h)
            ("simplify to '" +:+ formatExpr y
             +:+ "' (left side is always true)")
            [mkSuggestedFix
               ("Replace condition with '" +:+ formatExpr y +:+ "'")
               [mkTextEdit (hPos h) (hEnd h) (formatExpr y)]]).
Proof.
  intros Hc Hcmp Hop Hy Ht Hf Hs. unfold diagnoseIfStmt. rewrite Hs, Hc.
  assert (Hb : exists m,
             buildReplacementCondition pass (EBinary cmp)
             = Some (mkReplacementCondition "true" true m)).
  { rewrite build_binary. unfold handleBinaryExpr.
    destruct (analyze_verdict pass cmp)
      as [[E _] | [_ (c & n & -> & _)]]; [congruence|].
    rewrite Hop. cbn. eauto. }
  destruct Hb as [m Hb].
  rewrite build_connective by (cbn [Op]; auto).
  unfold handleLogicalExpr. cbn [X Y Op]. rewrite Hb, Hy.
  cbn [token.eqb NewCondition].
  unfold simplifyAndExpr, checkAndShortCircuit, checkAndSimplification,
    isLiteralExpr, createConditionFix.
  apply String.eqb_neq in Ht, Hf. cbn. unfold trueValue, falseValue.
  rewrite Ht, Hf. cbn. rewrite Hc. reflexivity.
Qed.

End GuardMore.

(** ** Properties of the oserrors analyzer *)

Section OserrorsProperties.

Import ast analysis oserrors.
Local Open Scope string_scope.

Variable Quote : string -> string.
Variable Base : string -> string.
Variable formatNode : Expr -> option string.

#[local] Abbreviation findAliasNameIn := (oserrors.findAliasNameIn Quote Base).
#[local] Abbreviation findAliasName := (oserrors.findAliasName Quote Base).
#[local] Abbreviation diagnoseCallExpr := (oserrors.diagnoseCallExpr Quote Base formatNode).
#[local] Abbreviation createDiagnostic := (oserrors.createDiagnostic Quote Base formatNode).
#[local] Abbreviation buildReplacementText := (oserrors.buildReplacementText Quote Base).
#[local] Abbreviation findMapping := (oserrors.findMapping Quote Base).
#[local] Abbreviation run := (oserrors.run Quote Base formatNode).
#[local] Abbreviation importsPath := (OserrorsVocabulary.importsPath Quote).
#[local] Abbreviation reportOf :=
  (OserrorsVocabulary.reportOf Quote Base formatNode).
#[local] Abbreviation argTextOf := (OserrorsVocabulary.argTextOf formatNode).
#[local] Abbreviation packageName :=
  (OserrorsVocabulary.packageName Quote Base).
#[local] Abbreviation replacementOf :=
  (OserrorsVocabulary.replacementOf Quote Base formatNode).
#[local] Abbreviation diagnosticOf := OserrorsVocabulary.diagnosticOf.

Lemma findAliasNameIn_skip (pre rest : list (option ImportSpec))
    (path : string) :
  (forall imp, In imp pre -> ~ importsPath path imp) ->
  findAliasNameIn (pre ++ rest) path = findAliasNameIn rest path.
Proof.
  induction pre as [|[i|] pre IH]; intros H; cbn; [reflexivity| |].
  - destruct (impPath i) as [v|] eqn:E.
    + destruct (String.eqb_spec v (Quote path)) as [-> | _].
      * exfalso. apply (H (Some i)); [now left|]. now exists i.
      * apply IH. intros imp Hin. apply H. now right.
    + apply IH. intros imp Hin. apply H. now right.
  - apply IH. intros imp Hin. apply H. now right.
Qed.

Lemma append_empty (a b : string) : a +:+ b = "" -> a = "".
Proof. destruct a; [reflexivity|discriminate]. Qed.

Lemma eqb_empty (s : string) : String.eqb s "" = true <-> s = "".
Proof. apply String.eqb_eq. Qed.

(** X16. [findAliasName] is empty when no import of the file has the
    quoted path; otherwise the first such import decides: its name, or
    [filepath.Base] of the path when it has no name. *)
Theorem findAliasName_first_import (f : SourceFile) (path : string) :
  ((forall imp, In imp (Imports f) -> ~ importsPath path imp) ->
   findAliasName f path = "")
  /\ (forall pre i rest,
         Imports f = (pre ++ Some i :: rest)%list ->
         (forall imp, In imp pre -> ~ importsPath path imp) ->
         impPath i = Some (Quote path) ->
         findAliasName f path
         = match impName i with
           | None => Base path
           | Some name => if String.eqb name "" then Base path else name
           end).
Proof.
  unfold oserrors.findAliasName. split.
  - intros H. rewrite <- (app_nil_r (Imports f)).
    now rewrite findAliasNameIn_skip.
  - intros pre i rest -> Hpre Hi. rewrite findAliasNameIn_skip by assumption.
    cbn. rewrite Hi, String.eqb_refl. unfold aliasNameOf.
    destruct (impName i); reflexivity.
Qed.

Lemma findMapping_mapped (r : runner) (file : option SourceFile)
    (call : Call) (fName fsErr : string) :
  findMapping r file call = (fName, fsErr) ->
  fsErr <> "" ->
  exists hs hx name,
    Fun call = SelectorExpr hs (Ident hx name) fName
    /\ name = importedIdentifier Quote Base file hx "os"
    /\ osFuncsToFsErr r !! fName = Some fsErr.
Proof.
  unfold oserrors.findMapping.
  destruct (Fun call) as [| | | | |hs x sel|]; try (intros [= <- <-]; congruence).
  destruct x as [| | |hx name| | |]; cbn; try (intros [= <- <-]; congruence).
  destruct (String.eqb_spec name (importedIdentifier Quote Base file hx "os"))
    as [E | _]; cbn; [|intros [= <- <-]; congruence].
  intros [= <- <-] Hne. exists hs, hx, name. repeat split; [assumption|].
  destruct (osFuncsToFsErr r !! sel); cbn in *; congruence.
Qed.

Lemma diagnoseCallExpr_file (r : runner) (f : SourceFile) (call : Call) :
  diagnoseCallExpr r (Some f) call <> Panic.
Proof.
  unfold oserrors.diagnoseCallExpr.
  destruct (findMapping r (Some f) call) as [fName fsErr].
  destruct (String.eqb fsErr ""); [discriminate|]. cbn.
  destruct (_ || _); [discriminate|].
  unfold oserrors.createDiagnostic. destruct (_ || _); [discriminate|].
  destruct (Args call) as [|arg [|]]; try discriminate. cbn.
  destruct (String.eqb _ _); discriminate.
Qed.

(** X17. With a file [diagnoseCallExpr] always returns; without one (a
    failed lookup in the file map) it returns [nil] for every call that
    is not a selector on an identifier with the empty name. *)
Theorem diagnoseCallExpr_returns (r : runner) (call : Call) :
  (forall f, exists o, diagnoseCallExpr r (Some f) call = Ok o)
  /\ ((forall hs hx fName,
          Fun call <> SelectorExpr hs (Ident hx "") fName) ->
      diagnoseCallExpr r None call = Ok None).
Proof.
  split.
  - intros f. pose proof (diagnoseCallExpr_file r f call) as H.
    destruct (diagnoseCallExpr r (Some f) call); [eauto|congruence].
  - intros Hne. unfold oserrors.diagnoseCallExpr.
    destruct (findMapping r None call) as [fName fsErr] eqn:E.
    destruct (String.eqb_spec fsErr "") as [|Hf]; [reflexivity|].
    destruct (findMapping_mapped r None call fName fsErr E Hf)
      as (hs & hx & name & HF & Hn & _).
    cbn in Hn. subst name. now apply Hne in HF.
Qed.

(** Without a file, a call that is not a selector on an identifier
    with the empty name gets no diagnostic. *)
Lemma diagnoseCallExpr_no_file (r : runner) (call : Call) :
  (forall hs hx fName, Fun call <> SelectorExpr hs (Ident hx "") fName) ->
  diagnoseCallExpr r None call = Ok None.
Proof.
  intros Hne. unfold oserrors.diagnoseCallExpr.
  destruct (findMapping r None call) as [fName fsErr] eqn:E.
  destruct (String.eqb_spec fsErr "") as [|Hf]; [reflexivity|].
  destruct (findMapping_mapped r None call fName fsErr E Hf)
    as (hs & hx & name & HF & Hn & _).
  cbn in Hn. subst name. now apply Hne in HF.
Qed.

(** The traversal pairs every call with the file found for it. *)
Lemma calls_fileOf (fset : token.FileSet) (files : list SourceFile)
    (file : option SourceFile) (call : Call) :
  In (file, call) (calls fset files) <->
  In call (callNodes files) /\ file = fileOf fset files call.
Proof.
  unfold calls. rewrite in_map_iff. split.
  - intros (c & [= <- <-] & H). auto.
  - intros [H ->]. eauto.
Qed.

Lemma fold_visit (r : runner) (l : list (option SourceFile * Call))
    (reported : list Diagnostic) :
  (forall fc, In fc l -> diagnoseCallExpr r (fst fc) (snd fc) <> Panic) ->
  fold_left (oserrors.visit Quote Base formatNode r) l (Ok reported)
  = Ok (reported ++ flat_map (reportOf r) l)%list.
Proof.
  revert reported. induction l as [|fc l IH]; intros reported H; cbn.
  - now rewrite app_nil_r.
  - pose proof (H fc (or_introl eq_refl)) as Hp. unfold reportOf at 1.
    destruct (diagnoseCallExpr r (fst fc) (snd fc)) as [[d|]|];
      [| |congruence]; rewrite IH by (intros; apply H; now right);
      cbn; now rewrite <- ?app_assoc.
Qed.

(** X18. [run] looks every call up in the file map, under the file name
    that the file set gives for the position of the call.  When no call
    whose lookup fails is a selector on an identifier with the empty
    name, [run] does not panic: it reports, in the order of the
    traversal, the diagnostic of every call that has one with the file
    found for it, and a call whose lookup fails adds nothing. *)
Theorem run_reports_each_call (r : runner) (fset : token.FileSet)
    (files : list SourceFile) :
  (forall call hs hx fName,
      In call (callNodes files) ->
      fileOf fset files call = None ->
      Fun call <> SelectorExpr hs (Ident hx "") fName) ->
  run r fset files = Ok (flat_map (reportOf r) (calls fset files))
  /\ (forall call,
         In call (callNodes files) ->
         fileOf fset files call = None ->
         reportOf r (fileOf fset files call, call) = []).
Proof.
  intros Hne. split.
  - unfold oserrors.run. rewrite fold_visit; [reflexivity|].
    intros [file call] [Hin ->]%calls_fileOf. cbn [fst snd].
    destruct (fileOf fset files call) as [f|] eqn:E.
    + apply diagnoseCallExpr_file.
    + rewrite diagnoseCallExpr_no_file; [discriminate|].
      intros hs hx fName. now apply Hne.
  - intros call Hin E. rewrite E. unfold OserrorsVocabulary.reportOf.
    cbn [fst snd]. rewrite diagnoseCallExpr_no_file; [reflexivity|].
    intros hs hx fName. now apply Hne.
Qed.

Lemma replacementOf_not_empty (f : SourceFile) (arg : Expr)
    (fsErr : string) :
  String.eqb (replacementOf f arg fsErr) "" = false.
Proof.
  unfold replacementOf. destruct (packageName f "errors" "errors");
    reflexivity.
Qed.

Lemma createDiagnostic_one_argument (f : SourceFile) (call : Call)
    (fName fsErr : string) (arg : Expr) :
  IsValid (hPos (callHdr call)) = true ->
  IsValid (hEnd (callHdr call)) = true ->
  Args call = [arg] ->
  createDiagnostic (Some f) call fName fsErr
  = Ok (Some (diagnosticOf call fName (replacementOf f arg fsErr))).
Proof.
  intros Hp He Ha. unfold oserrors.createDiagnostic.
  rewrite Hp, He, Ha. cbn [negb orb oserrors.buildReplacementText].
  fold (argTextOf arg). fold (packageName f "errors" "errors").
  fold (packageName f "io/fs" "fs"). fold (replacementOf f arg fsErr).
  now rewrite replacementOf_not_empty.
Qed.

Lemma createDiagnostic_some (f : SourceFile) (call : Call)
    (fName fsErr : string) (d : Diagnostic) :
  createDiagnostic (Some f) call fName fsErr = Ok (Some d) ->
  exists arg,
    Args call = [arg]
    /\ IsValid (hPos (callHdr call)) = true
    /\ IsValid (hEnd (callHdr call)) = true
    /\ d = diagnosticOf call fName (replacementOf f arg fsErr).
Proof.
  intros H.
  destruct (IsValid (hPos (callHdr call))) eqn:Hp,
           (IsValid (hEnd (callHdr call))) eqn:He;
    try (unfold oserrors.createDiagnostic in H; rewrite Hp, He in H;
         discriminate).
  destruct (Args call) as [|arg [|]] eqn:Ha;
    try (unfold oserrors.createDiagnostic in H; rewrite Hp, He, Ha in H;
         discriminate).
  rewrite (createDiagnostic_one_argument f call fName fsErr arg Hp He Ha)
    in H.
  injection H as <-. eauto.
Qed.

Lemma analyzer_table (fName fsErr : string) :
  osFuncsToFsErr analyzerRunner !! fName = Some fsErr ->
  In (fName, fsErr)
    [("IsNotExist", "ErrNotExist"); ("IsExist", "ErrExist");
     ("IsPermission", "ErrPermission")].
Proof.
  unfold analyzerRunner. cbn [osFuncsToFsErr].
  rewrite !lookup_insert_Some, lookup_empty. cbn.
  intros [[<- <-] | [_ [[<- <-] | [_ [[<- <-] | [_ H]]]]]]; auto.
  discriminate.
Qed.

(** X19. [Analyzer] reports a call only if it has the form
    [x.F(arg)] with one argument, [x] the identifier under which the
    file imports [os] and [F] one of [IsNotExist], [IsExist],
    [IsPermission], and if it is not suppressed; the message and the
    edit put [errors.Is(arg, fs.Err...)] in place of the call. *)
Theorem analyzer_reports_deprecated_calls
    (file : option SourceFile) (call : Call) (d : Diagnostic) :
  diagnoseCallExpr analyzerRunner file call = Ok (Some d) ->
  exists f hs hx name fName fsErr arg,
    file = Some f
    /\ Fun call = SelectorExpr hs (Ident hx name) fName
    /\ name = importedIdentifier Quote Base file hx "os"
    /\ In (fName, fsErr)
         [("IsNotExist", "ErrNotExist"); ("IsExist", "ErrExist");
          ("IsPermission", "ErrPermission")]
    /\ Args call = [arg]
    /\ shouldIgnore (Some f) call fName = Ok false
    /\ d = diagnosticOf call fName (replacementOf f arg fsErr).
Proof.
  intros H. unfold oserrors.diagnoseCallExpr in H.
  destruct (findMapping analyzerRunner file call) as [fName fsErr] eqn:E.
  destruct (String.eqb_spec fsErr "") as [|Hne]; [discriminate|].
  destruct (findMapping_mapped _ _ _ _ _ E Hne)
    as (hs & hx & name & HF & Hn & Hm).
  destruct file as [f|]; [|discriminate].
  destruct (shouldIgnore (Some f) call fName) as [[|]|] eqn:Hs;
    try discriminate.
  apply createDiagnostic_some in H as (arg & Ha & _ & _ & ->).
  exists f, hs, hx, name, fName, fsErr, arg.
  repeat split; try assumption; try reflexivity. now apply analyzer_table.
Qed.

(** X20. A call [x.F(arg)] of a mapped function on the identifier of
    the [os] import, with valid positions and not suppressed, is
    reported with the replacement [errors.Is(arg, fs.Err)] as its new
    text, under the names the file imports the two packages with. *)
Theorem deprecated_call_rewritten
    (r : runner) (f : SourceFile) (call : Call)
    (hs hx : Hdr) (name fName fsErr : string) (arg : Expr) :
  Fun call = SelectorExpr hs (Ident hx name) fName ->
  importedIdentifier Quote Base (Some f) hx "os" = name ->
  osFuncsToFsErr r !! fName = Some fsErr ->
  fsErr <> "" ->
  shouldIgnore (Some f) call fName = Ok false ->
  hPos (callHdr call) <> 0 ->
  hEnd (callHdr call) <> 0 ->
  Args call = [arg] ->
  diagnoseCallExpr r (Some f) call
  = Ok (Some (diagnosticOf call fName (replacementOf f arg fsErr))).
Proof.
  intros HF Hn Hm Hne Hs Hp He Ha. unfold oserrors.diagnoseCallExpr.
  unfold oserrors.findMapping. rewrite HF. cbn [isPkg]. rewrite Hn.
  rewrite String.eqb_refl, Hm. cbn [negb default id].
  apply String.eqb_neq in Hne. rewrite Hne, Hs.
  apply createDiagnostic_one_argument; [| |assumption];
    unfold IsValid; apply negb_true_iff, Z.eqb_neq; assumption.
Qed.

Lemma ShouldIgnore_iff (i : directive.Ignore) (name : gostring) :
  directive.ShouldIgnore i name = true
  <-> directive.Names i = [] \/ In name (directive.Names i).
Proof.
  unfold directive.ShouldIgnore.
  destruct (directive.Names i) as [|n ns] eqn:E; cbn [length Nat.eqb].
  - tauto.
  - rewrite hasName_In, E. intuition discriminate.
Qed.

(** X21. A call inside a function whose doc comment is a directive
    without names, or naming [oserrors], or naming the called function,
    gets no diagnostic. *)
Theorem call_suppressed_in_function
    (r : runner) (f : SourceFile) (call : Call)
    (h : Hdr) (doc : option CommentGroup) (body : option BlockStmt)
    (i : directive.Ignore) :
  In (FuncDecl h doc body) (Decls (syntax f)) ->
  hPos h <= hPos (callHdr call) ->
  hEnd (callHdr call) <= hEnd h ->
  directive.ParseIgnore doc = Some i ->
  directive.Names i = []
  \/ In (str "oserrors") (directive.Names i)
  \/ (exists hs x fName,
        Fun call = SelectorExpr hs x fName
        /\ In (utf8.runes fName) (directive.Names i)) ->
  diagnoseCallExpr r (Some f) call = Ok None.
Proof.
  intros Hin Hp He Hi Hnames. unfold oserrors.diagnoseCallExpr.
  destruct (findMapping r (Some f) call) as [fName fsErr] eqn:E.
  destruct (String.eqb_spec fsErr "") as [|Hne]; [reflexivity|].
  destruct (findMapping_mapped _ _ _ _ _ E Hne)
    as (hs & hx & name & HF & _ & _).
  assert (Hig : ignoresCall doc fName = true).
  { unfold ignoresCall. rewrite Hi, orb_true_iff, !ShouldIgnore_iff.
    destruct Hnames as [H | [H | (hs' & x' & fName' & HF' & H)]]; auto.
    rewrite HF in HF'. injection HF' as _ _ <-. auto. }
  cbn [shouldIgnore]. replace (shouldIgnoreInFunction f call fName) with true;
    [reflexivity|].
  symmetry. unfold shouldIgnoreInFunction. apply existsb_exists.
  exists (FuncDecl h doc body). split; [assumption|].
  apply Z.leb_le in Hp, He. now rewrite Hp, He, Hig.
Qed.

End OserrorsProperties.

(** ** The further properties on the sample inputs *)

Lemma ParseIgnore_first_directive_witness :
  directive.ParseIgnore
    (Some (mkCommentGroup 11 80
             (MoreSamples.docBefore
              ++ MoreSamples.docDirective :: MoreSamples.docAfter)))
  = Some (directive.mkIgnore [str "ctxnil"]).
Proof.
  refine (eq_trans
            (proj1 (ParseIgnore_first_directive 11 80 MoreSamples.docBefore
                      MoreSamples.docAfter MoreSamples.docDirective _ _))
            _).
  - intros c [<- | [<- | []]]; reflexivity.
  - reflexivity.
  - reflexivity.
Defined.

Lemma ParseIgnore_Join_witness :
  directive.ParseIgnore
    (Some (mkCommentGroup 11 47
             [mkComment (str "//godernize:ignore=IsNotExist,IsExist")]))
  = Some (directive.mkIgnore MoreSamples.listedNames).
Proof.
  refine (proj1 (ParseIgnore_Join MoreSamples.listedNames 11 47 [] _ _)).
  - discriminate.
  - intros n [<- | [<- | []]]; (split; [|reflexivity]);
      intros H; vm_compute in H; intuition discriminate.
Defined.

Lemma literal_results_spelled_without_parens_witness :
  "false"%string = "true"%string \/ "false"%string = "false"%string.
Proof.
  exact (literal_results_spelled_without_parens
           (analysis.mkPass [] Samples.typeOf)
           (ast.EBinary Samples.trueAndFalse)
           (ctxnil.mkReplacementCondition "false" true
              "condition is always false (right side is false)")
           eq_refl eq_refl eq_refl).
Defined.

Lemma comparison_with_plain_operand_witness :
  ctxnil.buildReplacementCondition (analysis.mkPass [] Samples.typeOf)
    (ast.EBinary
       (ast.mkBinaryExpr (ast.mkHdr 40 103 122) (Samples.ctxNeNil 41 103)
          token.LAND MoreSamples.ready))
  = Some (ctxnil.mkReplacementCondition "ready" false
            "simplify to 'ready' (left side is always true)").
Proof.
  exact (proj1 (comparison_with_plain_operand
                  (analysis.mkPass [] Samples.typeOf) (ast.mkHdr 40 103 122)
                  (Samples.ctxNeNilExpr 41 103) MoreSamples.ready
                  eq_refl eq_refl)).
Defined.

Lemma always_false_guard_removed_witness :
  ctxnil.diagnoseIfStmt (analysis.mkPass [] Samples.typeOf) None
    MoreSamples.ifNil
  = Some (analysis.mkDiagnostic 100
            "condition is always false, remove entire if statement"
            [analysis.mkSuggestedFix "Remove if statement"
               [analysis.mkTextEdit 100 125 EmptyString]]).
Proof.
  exact (always_false_guard_removed (analysis.mkPass [] Samples.typeOf) None
           MoreSamples.ifNil (Samples.ctxEqNilExpr 21 103)
           eq_refl eq_refl eq_refl eq_refl eq_refl).
Defined.

Lemma run_reports_only_diagnosed_nodes_witness :
  exists file n,
    In (file, n) (ctxnil.preorder Samples.fileSet Samples.passCall)
    /\ DriverVocabulary.produces Samples.passCall file n
         MoreSamples.guardDiagnostic
    /\ ctxnil.shouldIgnore file n (str "ctxnil") = false.
Proof.
  apply (run_reports_only_diagnosed_nodes Samples.fileSet Samples.passCall
           MoreSamples.guardDiagnostic).
  vm_compute. left. reflexivity.
Defined.

Lemma run_edits_diagnosed_node_witness :
  exists file n,
    In (file, n) (ctxnil.preorder Samples.fileSet Samples.passCall)
    /\ (DriverVocabulary.editsSpan MoreSamples.guardDiagnostic
          (ast.hPos (ast.nodeHdr n)) (ast.hEnd (ast.nodeHdr n))
        \/ exists s,
            n = ast.NIf s
            /\ DriverVocabulary.editsSpan MoreSamples.guardDiagnostic
                 (ast.hPos (ast.exprHdr (ast.Cond s)))
                 (ast.hEnd (ast.exprHdr (ast.Cond s)))).
Proof.
  apply (run_edits_diagnosed_node Samples.fileSet Samples.passCall
           MoreSamples.guardDiagnostic).
  vm_compute. left. reflexivity.
Defined.

Lemma run_silent_when_suppressed_witness :
  ctxnil.run Samples.fileSet MoreSamples.passIgnored = [].
Proof.
  apply (run_silent_when_suppressed Samples.fileSet MoreSamples.passIgnored).
  intros file n H. vm_compute in H.
  repeat (destruct H as [H | H]; [injection H as <- <-; reflexivity|]).
  contradiction.
Defined.

(** A line directive ahead of [run], whose doc comment is
    [//godernize:ignore=ctxnil]: the nodes of the function are looked up
    under [gen.go], the file map has the file under [a.go] only, the
    directive is not seen without the file, and [run] reports the two
    diagnostics that it spares the function otherwise. *)
Example run_line_directive :
  ctxnil.run Samples.fileSet MoreSamples.passIgnored = []
  /\ map fst (ctxnil.preorder (MoreSamples.lineFileSet 11)
                MoreSamples.passIgnored)
     = [None; None; None; None]
  /\ map analysis.Message
       (ctxnil.run (MoreSamples.lineFileSet 11) MoreSamples.passIgnored)
     = ["simplify to 'expr' (left side is always true)";
        "context should never be nil, replace 'ctx == nil' with 'false'"]%string.
Proof. repeat split; vm_compute; reflexivity. Qed.

(** The call [os.IsNotExist(err)] is reported when its file is found
    and is passed over when a line directive moves its position to a
    file name that the file map does not have. *)
Example oserrors_run_line_directive :
  oserrors.run MoreSamples.sampleQuote MoreSamples.sampleBase
    MoreSamples.sampleFormat oserrors.analyzerRunner Samples.fileSet
    [MoreSamples.osFile]
  = oserrors.Ok
      [OserrorsVocabulary.diagnosticOf (MoreSamples.osCall 0) "IsNotExist"
         "errors.Is(err, fs.ErrNotExist)"]
  /\ oserrors.run MoreSamples.sampleQuote MoreSamples.sampleBase
       MoreSamples.sampleFormat oserrors.analyzerRunner
       (MoreSamples.lineFileSet 25) [MoreSamples.osFile]
     = oserrors.Ok [].
Proof. split; vm_compute; reflexivity. Qed.

Lemma run_reports_each_call_witness :
  oserrors.run MoreSamples.sampleQuote MoreSamples.sampleBase
    MoreSamples.sampleFormat oserrors.analyzerRunner
    (MoreSamples.lineFileSet 25) [MoreSamples.osFile]
  = oserrors.Ok [].
Proof.
  refine (proj1 (run_reports_each_call
                   MoreSamples.sampleQuote MoreSamples.sampleBase
                   MoreSamples.sampleFormat oserrors.analyzerRunner
                   (MoreSamples.lineFileSet 25) [MoreSamples.osFile] _)).
  intros call hs hx fName H _. vm_compute in H.
  destruct H as [<- | []]. discriminate.
Defined.

Lemma analyzer_reports_deprecated_calls_witness :
  exists fName fsErr,
    In (fName, fsErr)
      [("IsNotExist", "ErrNotExist"); ("IsExist", "ErrExist");
       ("IsPermission", "ErrPermission")]%string
    /\ oserrors.Args (MoreSamples.osCall 0)
       = [Samples.ident 207 76 "err"].
Proof.
  destruct (analyzer_reports_deprecated_calls
              MoreSamples.sampleQuote MoreSamples.sampleBase
              MoreSamples.sampleFormat (Some MoreSamples.osFile)
              (MoreSamples.osCall 0)
              (OserrorsVocabulary.diagnosticOf (MoreSamples.osCall 0)
                 "IsNotExist" "errors.Is(err, fs.ErrNotExist)")
              eq_refl)
    as (f & hs & hx & name & fName & fsErr & arg & _ & _ & _ & Hin & Ha & _).
  exists fName, fsErr. split; [exact Hin|reflexivity].
Defined.

Lemma deprecated_call_rewritten_witness :
  oserrors.diagnoseCallExpr MoreSamples.sampleQuote MoreSamples.sampleBase
    MoreSamples.sampleFormat oserrors.analyzerRunner
    (Some MoreSamples.osFile) (MoreSamples.osCall 0)
  = oserrors.Ok
      (Some (analysis.mkDiagnostic 62
               "os.IsNotExist is deprecated, use errors.Is(err, fs.ErrNotExist) instead"
               [analysis.mkSuggestedFix
                  "Replace with errors.Is(err, fs.ErrNotExist)"
                  [analysis.mkTextEdit 62 80
                     "errors.Is(err, fs.ErrNotExist)"]])).
Proof.
  refine (deprecated_call_rewritten
            MoreSamples.sampleQuote MoreSamples.sampleBase
            MoreSamples.sampleFormat oserrors.analyzerRunner
            MoreSamples.osFile (MoreSamples.osCall 0)
            (ast.mkHdr 205 62 75) (ast.mkHdr 206 62 64)
            "os" "IsNotExist" "ErrNotExist" (Samples.ident 207 76 "err")
            eq_refl eq_refl eq_refl _ eq_refl _ _ eq_refl);
    [discriminate | cbn; lia | cbn; lia].
Defined.

Lemma call_suppressed_in_function_witness :
  oserrors.diagnoseCallExpr MoreSamples.sampleQuote MoreSamples.sampleBase
    MoreSamples.sampleFormat oserrors.analyzerRunner
    (Some MoreSamples.osFileIgnored) (MoreSamples.osCall 30)
  = oserrors.Ok None.
Proof.
  refine (call_suppressed_in_function
            MoreSamples.sampleQuote MoreSamples.sampleBase
            MoreSamples.sampleFormat oserrors.analyzerRunner
            MoreSamples.osFileIgnored (MoreSamples.osCall 30)
            (ast.mkHdr 201 55 112) (Some MoreSamples.osDirective) _
            (directive.mkIgnore [str "IsNotExist"])
            (or_introl eq_refl) _ _ eq_refl _).
  - cbn. lia.
  - cbn. lia.
  - right. right. eexists _, _, _. split; [reflexivity|].
    left. reflexivity.
Defined.

Lemma guard_collapses_to_operand_witness :
  ctxnil.diagnoseIfStmt (analysis.mkPass [] Samples.typeOf) None
    MoreSamples.ifReady
  = Some (analysis.mkDiagnostic 103
            "simplify to 'ready' (left side is always true)"
            [analysis.mkSuggestedFix "Replace condition with 'ready'"
               [analysis.mkTextEdit 103 122 "ready"]]).
Proof.
  refine (guard_collapses_to_operand (analysis.mkPass [] Samples.typeOf)
            None MoreSamples.ifReady (ast.mkHdr 40 103 122)
            (Samples.ctxNeNilExpr 41 103) MoreSamples.ready
            eq_refl eq_refl eq_refl eq_refl _ _ eq_refl);
    discriminate.
Defined.
